(** * Availability record pipeline of automation_wyndham

    A shallow embedding of the Python sources

    - [src/CSV Convertors/response_to_csv.py]   (module [ResponseToCsv])
    - [src/monitoring/wyndham_csv_watcher.py]   (module [Watcher])
    - [src/monitoring/wyndham_realtime_scanner.py] (module [Realtime])
    - [src/monitoring/wyndham_monitor.py]       (module [Monitor])

    together with the properties of the parser, the ledger
    ([unique_combinations]), the two write modes of the CSV artifact and
    the statistics reader.

    Modelling conventions.
    - Python [str] is [string]; the order on [str] (by code point) is the
      byte-wise lexicographic order, which coincides with it on UTF-8.
    - A JSON object of the payload is a record whose fields are [option]s:
      [None] is an absent key, so [d.get(k, default)] is [get_or].
    - A Python [dict] is an association list in insertion order.
    - [try: ... except Exception] is a state-and-exception monad: the
      mutable accumulator survives the exception, the rest of the body is
      abandoned.
    - The file system is a finite map from paths to CSV files (a list of
      lines, each a list of cells) and an oracle saying which paths can be
      opened for writing; every attempt to open is recorded in a trace.
    - A [pathlib.Path] is the text [str()] gives for it; [py_path] makes
      the path of a text.
    - The statistics reader opens the file in text mode, the writers
      with [newline='']: a cell comes back with its carriage returns
      turned into line feeds ([Monitor.text_mode]). *)

From Stdlib Require Import List String Ascii ZArith Lia Bool.
From Stdlib Require Import Permutation Sorted OrdersEx DecimalString.
From Stdlib Require Import DecimalPos.
Import ListNotations.
Local Open Scope string_scope.
Local Open Scope Z_scope.
Local Open Scope list_scope.

Set Implicit Arguments.

(* ================================================================= *)
(** * Python values and builtins *)

(** A Python [float], by what the program can see of it: the result of
    [int()] ([None] when it raises, for an infinity or a NaN), the text
    [str()] gives, and whether it is different from zero. *)
Record pyfloat : Type := mkFloat {
  float_int : option Z;
  float_str : string;
  float_nonzero : bool
}.

(** The scalar JSON values a payload field may hold. *)
Inductive pyval : Type :=
| PyNone
| PyBool (b : bool)
| PyInt (z : Z)
| PyStr (s : string)
| PyFloat (f : pyfloat).

(** Truth value testing ([not v], [if v:]). *)
Definition truthy (v : pyval) : bool :=
  match v with
  | PyNone => false
  | PyBool b => b
  | PyInt z => negb (z =? 0)
  | PyStr s => negb (String.eqb s "")
  | PyFloat f => float_nonzero f
  end.

(** [d.get(k, default)] on an optional field. *)
Definition get_or {A : Type} (o : option A) (default : A) : A :=
  match o with
  | Some v => v
  | None => default
  end.

(** [needle in hay] on strings: substring containment. *)
Fixpoint str_in (needle hay : string) : bool :=
  if String.prefix needle hay then true
  else match hay with
       | EmptyString => false
       | String _ rest => str_in needle rest
       end.

(** [s.endswith(suffix)] *)
Definition str_endswith (s suffix : string) : bool :=
  let n := String.length s in
  let m := String.length suffix in
  if (m <=? n)%nat then String.eqb (substring (n - m) m s) suffix else false.

(** ** [pathlib.Path]

    A [Path] object is modelled by the text [str()] gives for it, which
    is the same for two paths exactly when they are equal.  [py_path s]
    is [Path(s)] for a POSIX path: the components are what stands
    between slashes, empty components and ["."] are dropped, [".."] is
    kept; the root is ["/"], or ["//"] when the text starts with exactly
    two slashes; the path without root and components is ["."].  (On
    Windows, where also the back slash separates and letter case is
    ignored, paths are not modelled.) *)
Fixpoint split_slash (s : string) : list string :=
  match s with
  | EmptyString => [EmptyString]
  | String c rest =>
      if Ascii.eqb c "/"%char then EmptyString :: split_slash rest
      else match split_slash rest with
           | first :: others => String c first :: others
           | [] => [String c EmptyString]
           end
  end.

Definition path_root (s : string) : string :=
  match s with
  | String "/" (String "/" (String "/" _)) => "/"
  | String "/" (String "/" _) => "//"
  | String "/" _ => "/"
  | _ => ""
  end.

Definition path_parts (s : string) : list string :=
  filter (fun c => negb (String.eqb c "") && negb (String.eqb c "."))
         (split_slash s).

Definition py_path (s : string) : string :=
  match path_root s, path_parts s with
  | EmptyString, [] => "."
  | root, parts => (root ++ String.concat "/" parts)%string
  end.

(** ** [int()] *)

(** White space stripped by [int(str)] in an ASCII string: tab, line
    feed, vertical tab, form feed, carriage return and space. *)
Definition is_space (c : ascii) : bool :=
  let n := N_of_ascii c in
  ((9 <=? n) && (n <=? 13) || (n =? 32))%N.

Definition digit_of (c : ascii) : option Z :=
  let n := N_of_ascii c in
  if ((48 <=? n) && (n <=? 57))%N then Some (Z.of_N n - 48) else None.

Fixpoint lstrip (l : list ascii) : list ascii :=
  match l with
  | c :: rest => if is_space c then lstrip rest else l
  | [] => []
  end.

Definition strip (l : list ascii) : list ascii :=
  rev (lstrip (rev (lstrip l))).

(** Stripping on the right alone, by recursion from the left. *)
Fixpoint rstrip (l : list ascii) : list ascii :=
  match l with
  | [] => []
  | c :: rest => if forallb is_space l then [] else c :: rstrip rest
  end.

(** Decimal digits, with single underscores allowed between two digits.
    [prev_digit] tells whether the previous character was a digit. *)
Fixpoint digits_value (l : list ascii) (acc : Z) (prev_digit : bool)
  : option Z :=
  match l with
  | [] => if prev_digit then Some acc else None
  | c :: rest =>
      if Ascii.eqb c "_"%char then
        if prev_digit then digits_value rest acc false else None
      else
        match digit_of c with
        | Some d => digits_value rest (10 * acc + d) true
        | None => None
        end
  end.

(** The limit of CPython (3.11 and later, and the security releases of
    the versions before) on the number of digits [int] converts, at its
    default. *)
Definition int_max_str_digits : N := 4300.

Definition is_digit (c : ascii) : bool :=
  match digit_of c with
  | Some _ => true
  | None => false
  end.

Definition count_digits (l : list ascii) : N :=
  N.of_nat (List.length (filter is_digit l)).

(** An optional sign, then the digits. *)
Definition int_of_chars (l : list ascii) : option Z :=
  match l with
  | c :: rest =>
      if Ascii.eqb c "-"%char then option_map Z.opp (digits_value rest 0 false)
      else if Ascii.eqb c "+"%char then digits_value rest 0 false
      else digits_value (c :: rest) 0 false
  | [] => None
  end.

(** [int(s)] for a string, base 10; [None] is [ValueError].  The model
    is that of ASCII text: decimal digits and white space outside ASCII,
    which [int] also accepts, are rejected here. *)
Definition int_of_str (s : string) : option Z :=
  let l := strip (list_ascii_of_string s) in
  if (count_digits l <=? int_max_str_digits)%N then int_of_chars l
  else None.

(** [int(v)]; [None] is the exception ([TypeError], [ValueError] or
    [OverflowError]).  A float is truncated towards zero. *)
Definition py_int (v : pyval) : option Z :=
  match v with
  | PyNone => None
  | PyBool b => Some (if b then 1 else 0)
  | PyInt z => Some z
  | PyStr s => int_of_str s
  | PyFloat f => float_int f
  end.

(** [str(v)] as [csv.DictWriter] writes a cell ([None] is written as the
    empty cell).  For an integer this is its decimal text; an integer of
    more digits than [int_max_str_digits], on which [str] raises, is not
    among the values of a payload, since [json.load] makes its integers
    with [int]. *)
Definition py_str (v : pyval) : string :=
  match v with
  | PyNone => ""
  | PyBool b => if b then "True" else "False"
  | PyInt z => NilZero.string_of_int (Z.to_int z)
  | PyStr s => s
  | PyFloat f => float_str f
  end.

(** What the text of a float always holds: a point, an exponent, or
    the name of an infinity or of a NaN. *)
Definition is_float_text (s : string) : bool :=
  str_in "." s || str_in "e" s || str_in "inf" s || str_in "nan" s.

(** A text of ASCII characters only, on which [int_of_str] is [int]. *)
Definition is_ascii (s : string) : bool :=
  forallb (fun c => (N_of_ascii c <? 128)%N) (list_ascii_of_string s).


(* ================================================================= *)
(** * State and exception monad

    [Exn S A] is a computation over a mutable state [S] that either
    finishes with a value or raises; in both cases the state reached so
    far is kept, as with a Python object mutated inside [try]. *)

Definition Exn (S A : Type) : Type := S -> S * option A.

Definition ret {S A : Type} (a : A) : Exn S A := fun s => (s, Some a).

Definition raise {S A : Type} : Exn S A := fun s => (s, None).

Definition bind {S A B : Type} (m : Exn S A) (k : A -> Exn S B) : Exn S B :=
  fun s => match m s with
           | (s', Some a) => k a s'
           | (s', None) => (s', None)
           end.

Definition modify {S : Type} (f : S -> S) : Exn S unit :=
  fun s => (f s, Some tt).

Definition lift_opt {S A : Type} (o : option A) : Exn S A :=
  match o with
  | Some a => ret a
  | None => raise
  end.

Notation "x <- m ;; k" := (bind m (fun x => k))
  (at level 61, m at next level, right associativity).
Notation "m ;;; k" := (bind m (fun _ => k))
  (at level 61, right associativity).

(** [for x in l: body x]. *)
Fixpoint for_each {S A : Type} (body : A -> Exn S unit) (l : list A)
  : Exn S unit :=
  match l with
  | [] => ret tt
  | x :: rest => body x ;;; for_each body rest
  end.

(** [try: m except Exception: pass] seen from the state. *)
Definition run_try {S A : Type} (m : Exn S A) (s : S) : S := fst (m s).

(** Whether the body raised. *)
Definition raised {S A : Type} (m : Exn S A) (s : S) : bool :=
  match snd (m s) with
  | Some _ => false
  | None => true
  end.

(* ================================================================= *)
(** * Data model *)

(** A row of the output, the dictionary built by the parser.  The count
    is stored as it came in the payload (a string or a number). *)
Record row : Type := mkRow {
  date : string;
  offeringId : string;
  inventoryOfferingHashKey : string;
  invenOffrngLabel : string;
  availableCount : pyval
}.

(** The raw payload:
    resorts[] -> resortOfferings[] -> accomdationClasses[] ->
    calendarDays[] -> inventoryOfferings[].
    A field is absent ([None]) or holds a value of its type: a text or a
    list where the parser expects one, any scalar for a count or a flag.
    A payload with JSON [null], or with a value of another type, in the
    place of a text or of a list is not among these. *)
Record inventory : Type := mkInventory {
  inv_availableCount : option pyval;
  inv_inventoryOfferingHashKey : option string;
  inv_invenOffrngLabel : option string
}.

Record calendar_day : Type := mkDay {
  day_available : option pyval;
  day_date : option string;
  day_inventoryOfferings : option (list inventory)
}.

Record accommodation : Type := mkAccommodation {
  acc_calendarDays : option (list calendar_day)
}.

Record offering : Type := mkOffering {
  off_offeringId : option string;
  off_offeringLabel : option string;
  off_accomdationClasses : option (list accommodation)
}.

Record resort : Type := mkResort {
  res_hasAvailableUnits : option pyval;
  res_resortOfferings : option (list offering)
}.

Record payload : Type := mkPayload {
  resorts : option (list resort)
}.

(* ================================================================= *)
(** * The parser

    The loop nest is the same text in [parse_network_response]
    (response_to_csv.py, lines 37-94), [_parse_response]
    (wyndham_csv_watcher.py, lines 105-151) and
    [RealtimeCSVHandler.parse_network_response]
    (wyndham_realtime_scanner.py, lines 85-140); it is embedded once.
    The state is [data_rows]. *)
Module Parser.

Definition PR : string := "Presidential Reserve".

Definition display_offering_id (offering_id offering_label : string)
  : string :=
  if str_in PR offering_label then
    if negb (str_in PR offering_id)
    then (offering_id ++ " Presidential Reserve")%string
    else offering_id
  else offering_id.

Definition display_label (offering_label inventory_label : string)
  : string :=
  if str_in PR offering_label && negb (str_in PR inventory_label)
  then (inventory_label ++ " (Presidential Reserve)")%string
  else inventory_label.

(** Body of [for inventory in inventory_offerings]. *)
Definition visit_inventory
    (offering_label display_id date : string) (inv : inventory)
  : Exn (list row) unit :=
  let available_count := get_or (inv_availableCount inv) (PyStr "0") in
  let inventory_hash_key := get_or (inv_inventoryOfferingHashKey inv) "" in
  let inventory_label := get_or (inv_invenOffrngLabel inv) "" in
  let inventory_label := display_label offering_label inventory_label in
  n <- lift_opt (py_int available_count) ;;
  if 0 <? n then
    modify (fun data_rows =>
              data_rows ++ [mkRow date display_id inventory_hash_key
                                  inventory_label available_count])
  else ret tt.

(** Body of [for day in calendar_days]. *)
Definition visit_day (offering_label display_id : string)
    (day : calendar_day) : Exn (list row) unit :=
  if negb (truthy (get_or (day_available day) (PyBool false))) then ret tt
  else
    let date := get_or (day_date day) "" in
    for_each (visit_inventory offering_label display_id date)
             (get_or (day_inventoryOfferings day) []).

(** Body of [for accommodation in accommodation_classes]. *)
Definition visit_accommodation (offering_label display_id : string)
    (a : accommodation) : Exn (list row) unit :=
  for_each (visit_day offering_label display_id)
           (get_or (acc_calendarDays a) []).

(** Body of [for offering in resort_offerings]. *)
Definition visit_offering (o : offering) : Exn (list row) unit :=
  let offering_id := get_or (off_offeringId o) "" in
  let offering_label := get_or (off_offeringLabel o) "" in
  let display_id := display_offering_id offering_id offering_label in
  for_each (visit_accommodation offering_label display_id)
           (get_or (off_accomdationClasses o) []).

(** Body of [for resort in data['resorts']]. *)
Definition visit_resort (r : resort) : Exn (list row) unit :=
  if negb (truthy (get_or (res_hasAvailableUnits r) (PyBool false)))
  then ret tt
  else for_each visit_offering (get_or (res_resortOfferings r) []).

(** The guarded body: an absent or empty [resorts] returns at once. *)
Definition body (data : payload) : Exn (list row) unit :=
  match resorts data with
  | None | Some [] => ret tt
  | Some rs => for_each visit_resort rs
  end.

(** [data_rows = []; try: body except Exception: print; return data_rows] *)
Definition extract (data : payload) : list row := run_try (body data) [].

End Parser.

(* ================================================================= *)
(** * Python containers and [sorted] *)

(** A [dict] in insertion order.  [dict_set] is [d[k] = v]: a new key goes
    to the end, an existing key keeps its place and gets the new value. *)
Section PyDict.
Variables K V : Type.
Variable eqb : K -> K -> bool.

Definition dict : Type := list (K * V).

Fixpoint dict_get (d : dict) (k : K) : option V :=
  match d with
  | [] => None
  | (k', v) :: rest => if eqb k k' then Some v else dict_get rest k
  end.

(** [k in d] *)
Definition dict_mem (d : dict) (k : K) : bool :=
  match dict_get d k with
  | Some _ => true
  | None => false
  end.

Fixpoint dict_set (d : dict) (k : K) (v : V) : dict :=
  match d with
  | [] => [(k, v)]
  | (k', v') :: rest =>
      if eqb k k' then (k', v) :: rest else (k', v') :: dict_set rest k v
  end.

Definition dict_keys (d : dict) : list K := map fst d.

(** [d.values()], in insertion order. *)
Definition dict_values (d : dict) : list V := map snd d.
End PyDict.

(** [sorted(l, key=key)]: stable, and only [<] on keys is used.  An
    element is put in front of the first element that is not smaller, so
    elements with equal keys keep the order they had in [l]. *)
Section PySorted.
Variables A K : Type.
Variable key : A -> K.
Variable ltb : K -> K -> bool.

Fixpoint insert_stable (x : A) (l : list A) : list A :=
  match l with
  | [] => [x]
  | y :: rest =>
      if ltb (key y) (key x) then y :: insert_stable x rest
      else x :: y :: rest
  end.

Definition sorted (l : list A) : list A := fold_right insert_stable [] l.

(** [x] may stand before [y]: the key of [y] is not smaller. *)
Definition key_le (x y : A) : Prop := ltb (key y) (key x) = false.
End PySorted.

(** The identity key of a row, the tuple used as dictionary key. *)
Definition key4 : Type := string * string * string * string.

Definition key_of (r : row) : key4 :=
  (date r, offeringId r, inventoryOfferingHashKey r, invenOffrngLabel r).

Definition key4_eqb (a b : key4) : bool :=
  let '(a1, a2, a3, a4) := a in
  let '(b1, b2, b3, b4) := b in
  String.eqb a1 b1 && String.eqb a2 b2 && String.eqb a3 b3 && String.eqb a4 b4.

(** The sort key [(x['date'], x['offeringId'], x['invenOffrngLabel'])]. *)
Definition key3 : Type := string * string * string.

Definition sort_key (r : row) : key3 :=
  (date r, offeringId r, invenOffrngLabel r).

(** Tuples compare lexicographically. *)
Definition key3_compare (a b : key3) : comparison :=
  let '(a1, a2, a3) := a in
  let '(b1, b2, b3) := b in
  match String.compare a1 b1 with
  | Eq => match String.compare a2 b2 with
          | Eq => String.compare a3 b3
          | c => c
          end
  | c => c
  end.

Definition key3_ltb (a b : key3) : bool :=
  match key3_compare a b with
  | Lt => true
  | _ => false
  end.

Definition key3_leb (a b : key3) : bool := negb (key3_ltb b a).

Definition key3_eqb (a b : key3) : bool :=
  let '(a1, a2, a3) := a in
  let '(b1, b2, b3) := b in
  String.eqb a1 b1 && String.eqb a2 b2 && String.eqb a3 b3.

(** The ledger: [unique_combinations]. *)
Definition ledger : Type := dict key4 row.

Definition ledger_mem : ledger -> key4 -> bool := @dict_mem key4 row key4_eqb.
Definition ledger_get : ledger -> key4 -> option row :=
  @dict_get key4 row key4_eqb.
Definition ledger_set : ledger -> key4 -> row -> ledger :=
  @dict_set key4 row key4_eqb.

(** The deduplicating loop shared by [aggregate_by_date],
    [_append_to_csv] and [update_csv_realtime]:
[[
    for row in rows:
        key = (row['date'], row['offeringId'],
               row['inventoryOfferingHashKey'], row['invenOffrngLabel'])
        if key not in unique_combinations:
            unique_combinations[key] = row
            unique_new_rows.append(row)
]]
    The state is the pair of the dictionary and the list of new rows. *)
Definition offer (st : ledger * list row) (r : row) : ledger * list row :=
  let '(unique_combinations, unique_new_rows) := st in
  let key := key_of r in
  if negb (ledger_mem unique_combinations key)
  then (ledger_set unique_combinations key r, unique_new_rows ++ [r])
  else (unique_combinations, unique_new_rows).

Definition offer_all (uc : ledger) (rows : list row) : ledger * list row :=
  fold_left offer rows (uc, []).

(** [sorted(unique_combinations.values(), key=lambda x: ...)] *)
Definition sorted_data (uc : ledger) : list row :=
  sorted sort_key key3_ltb (dict_values uc).

(* ================================================================= *)
(** * Files

    A CSV file is the list of its lines, a line the list of its cells
    (quoting by the [csv] module is below this level).  Opening a path
    for writing may fail; writing to an open file does not. *)

Definition path : Type := string.
Definition csv_line : Type := list string.
Definition csv_file : Type := list csv_line.

Inductive event : Type :=
| OpenOk (p : path)
| OpenFailed (p : path)
| ErrorPrinted (msg : string).

Record world : Type := mkWorld {
  can_open : path -> bool;
  disk : dict path csv_file;
  trace : list event
}.

Inductive open_mode : Type := ModeW | ModeA.

(** The paths the program tried to open, in order. *)
Fixpoint open_attempts (tr : list event) : list path :=
  match tr with
  | [] => []
  | OpenOk p :: rest => p :: open_attempts rest
  | OpenFailed p :: rest => p :: open_attempts rest
  | ErrorPrinted _ :: rest => open_attempts rest
  end.

Definition log (e : event) (w : world) : world :=
  mkWorld (can_open w) (disk w) (trace w ++ [e]).

(** [with open(p, mode) as f: writer.writerow(...) ...]: raises when the
    path cannot be opened; mode 'w' truncates, mode 'a' appends (and
    creates the file when there is none). *)
Definition write_file (mode : open_mode) (p : path) (lines : csv_file)
  : Exn world unit :=
  fun w =>
    if can_open w p then
      let old := match mode with
                 | ModeW => []
                 | ModeA => get_or (dict_get String.eqb (disk w) p) []
                 end in
      (mkWorld (can_open w)
               (dict_set String.eqb (disk w) p (old ++ lines))
               (trace w ++ [OpenOk p]),
       Some tt)
    else (log (OpenFailed p) w, None).

(** [print(f"... {e}")] of an error message. *)
Definition print_error (msg : string) : Exn world unit :=
  modify (log (ErrorPrinted msg)).

(** [try: m except Exception as e: handler] *)
Definition try_except {S A : Type} (m : Exn S A) (handler : Exn S A)
  : Exn S A :=
  fun s => match m s with
           | (s', Some a) => (s', Some a)
           | (s', None) => handler s'
           end.

Definition read_file (w : world) (p : path) : option csv_file :=
  dict_get String.eqb (disk w) p.

Definition fieldnames : csv_line :=
  ["date"; "offeringId"; "inventoryOfferingHashKey"; "invenOffrngLabel";
   "availableCount"].

(** [writer.writerow(row)] with [fieldnames] as columns. *)
Definition csv_of_row (r : row) : csv_line :=
  [date r; offeringId r; inventoryOfferingHashKey r; invenOffrngLabel r;
   py_str (availableCount r)].

(* ================================================================= *)
(** * response_to_csv.py: the batch path *)
Module ResponseToCsv.

(** [parse_network_response(file_path)].  The argument is what
    [json.load] gives for the file, [None] when opening or decoding it
    raises (the handlers return the empty [data_rows]). *)
Definition parse_network_response (content : option payload) : list row :=
  match content with
  | None => []
  | Some data => Parser.extract data
  end.

(** Body of the loop of [aggregate_by_date]. *)
Definition keep_first (unique_combinations : ledger) (r : row) : ledger :=
  let key := key_of r in
  if negb (ledger_mem unique_combinations key)
  then ledger_set unique_combinations key r
  else unique_combinations.

Definition aggregate_by_date (all_data : list row) : list row :=
  let unique_combinations := fold_left keep_first all_data [] in
  sorted sort_key key3_ltb (dict_values unique_combinations).

(** [Path(directory) / name] *)
Definition path_join (directory name : string) : path :=
  (directory ++ "/" ++ name)%string.

(** [process_directory(directory_path, output_file)].  [files] are the
    files matching the glob with their decoded contents, [cwd] is
    [Path.cwd()].  Only the error messages are kept of the output.  The
    sample of ten rows the source prints after a successful write stands
    inside the same [try]; it formats the four strings and the count of
    rows of type [row], which does not raise, and is left out with the
    rest of the output. *)
Definition process_directory (cwd directory_path output_file : string)
    (files : list (path * option payload)) (w : world) : world :=
  match files with
  | [] => w
  | _ =>
      let all_data :=
        flat_map (fun f => parse_network_response (snd f))
                 (sorted fst String.ltb files) in
      let aggregated_data := aggregate_by_date all_data in
      let lines := fieldnames :: map csv_of_row aggregated_data in
      let output_path := path_join directory_path output_file in
      let alt_output_path := path_join cwd output_file in
      run_try
        (try_except
           (write_file ModeW output_path lines)
           (print_error "Error writing CSV file" ;;;
            try_except
              (write_file ModeW alt_output_path lines)
              (print_error "Error writing to alternative location")))
        w
  end.

End ResponseToCsv.

(* ================================================================= *)
(** * wyndham_csv_watcher.py: [AvailabilityCSVGenerator] *)
Module Watcher.

Record t : Type := mk {
  output_csv : path;
  processed_files : list path;
  unique_combinations : ledger
}.

(** The fields as [__init__] sets them. *)
Definition fresh (output_csv : path) : t := mk output_csv [] [].

Definition _initialize_csv (self : t) : Exn world unit :=
  write_file ModeW (output_csv self) [fieldnames].

Definition _parse_response (data : payload) : list row :=
  Parser.extract data.

Definition _append_to_csv (self : t) (new_rows : list row) (w : world)
  : t * world :=
  let '(uc, unique_new_rows) :=
    offer_all (unique_combinations self) new_rows in
  let self' := mk (output_csv self) (processed_files self) uc in
  match unique_new_rows with
  | [] => (self', w)
  | _ =>
      (self',
       run_try
         (try_except
            (write_file ModeA (output_csv self) (map csv_of_row unique_new_rows))
            (print_error "Error writing to CSV"))
         w)
  end.

Definition regenerate_sorted_csv (self : t) (w : world) : world :=
  let sorted_data := sorted_data (unique_combinations self) in
  run_try
    (try_except
       (write_file ModeW (output_csv self)
                   (fieldnames :: map csv_of_row sorted_data))
       (print_error "Error regenerating CSV"))
    w.

(** [_process_file(file_path)]; [file_path] is a [Path] (its text, see
    [py_path]), [content] is what [json.load] gives, [None] when reading
    or decoding raises. *)
Definition _process_file (self : t) (file_path : path)
    (content : option payload) (w : world) : t * world :=
  if existsb (String.eqb file_path) (processed_files self) then (self, w)
  else
    match content with
    | None => (self, log (ErrorPrinted "Error processing") w)
    | Some data =>
        let new_rows := _parse_response data in
        let '(self1, w1) :=
          match new_rows with
          | [] => (self, w)
          | _ => _append_to_csv self new_rows w
          end in
        (mk (output_csv self1) (processed_files self1 ++ [file_path])
            (unique_combinations self1),
         w1)
    end.

(** The size of the ledger, [len(self.unique_combinations)]. *)
Definition size (self : t) : nat :=
  List.length (unique_combinations self).

(** Successive calls of [_append_to_csv], one per batch. *)
Definition append_all (self : t) (batches : list (list row)) (w : world)
  : t * world :=
  fold_left (fun st batch => _append_to_csv (fst st) batch (snd st))
            batches (self, w).

(** Successive calls of [_process_file], one per file. *)
Definition process_files (self : t) (files : list (path * option payload))
    (w : world) : t * world :=
  fold_left (fun st f => _process_file (fst st) (fst f) (snd f) (snd st))
            files (self, w).

(** A file system event of [watchdog]. *)
Record fs_event : Type := mkEvent {
  is_directory : bool;
  src_path : string
}.

(** ['network-response' in event.src_path and
    event.src_path.endswith('.txt')] *)
Definition is_response_path (p : string) : bool :=
  str_in "network-response" p && str_endswith p ".txt".

(** [on_created(event)]; [read p] is what [json.load] gives for the file
    at [p] ([None] when reading or decoding raises).  The test of the
    name is on the text of the event, the file is processed under
    [Path(event.src_path)].  The pause before reading is not part of the
    model. *)
Definition on_created (self : t) (event : fs_event)
    (read : path -> option payload) (w : world) : t * world :=
  if is_directory event then (self, w)
  else if is_response_path (src_path event)
       then
         let file_path := py_path (src_path event) in
         _process_file self file_path (read file_path) w
       else (self, w).

(** [on_modified(event)] *)
Definition on_modified (self : t) (event : fs_event)
    (read : path -> option payload) (w : world) : t * world :=
  if is_directory event then (self, w)
  else if is_response_path (src_path event)
       then
         let file_path := py_path (src_path event) in
         if negb (existsb (String.eqb file_path) (processed_files self))
         then _process_file self file_path (read file_path) w
         else (self, w)
       else (self, w).

(** [_process_existing_files()]; [existing_files] is what the glob
    gives, with the decoded contents. *)
Definition _process_existing_files (self : t)
    (existing_files : list (path * option payload)) (w : world)
  : t * world :=
  match existing_files with
  | [] => (self, w)
  | _ => process_files self (sorted fst String.ltb existing_files) w
  end.

(** [__init__(watch_dir, output_csv)]: an exception of
    [_initialize_csv] leaves the constructor, and no object is made. *)
Definition init (output_csv : path)
    (existing_files : list (path * option payload)) (w : world)
  : option t * world :=
  match _initialize_csv (fresh output_csv) w with
  | (w1, Some _) =>
      let st := _process_existing_files (fresh output_csv) existing_files w1 in
      (Some (fst st), snd st)
  | (w1, None) => (None, w1)
  end.

(** The events the observer delivers. *)
Inductive delivery : Type :=
| Created (event : fs_event)
| Modified (event : fs_event).

Definition dispatch (read : path -> option payload) (st : t * world)
    (d : delivery) : t * world :=
  match d with
  | Created event => on_created (fst st) event read (snd st)
  | Modified event => on_modified (fst st) event read (snd st)
  end.

(** What happens to a running watcher, one locked operation at a time:
    the observer delivers an event, or the loop of [run_watcher] finds
    the interval elapsed and regenerates. *)
Inductive action : Type :=
| Deliver (d : delivery)
| Regenerate.

Definition act (read : path -> option payload) (st : t * world)
    (a : action) : t * world :=
  match a with
  | Deliver d => dispatch read st d
  | Regenerate => (fst st, regenerate_sorted_csv (fst st) (snd st))
  end.

End Watcher.

(* ================================================================= *)
(** * wyndham_realtime_scanner.py: [RealtimeCSVHandler] *)
Module Realtime.

Record t : Type := mk {
  output_file : path;
  all_data : list row;
  unique_combinations : ledger
}.

Definition fresh (output_file : path) : t := mk output_file [] [].

Definition _initialize_csv (self : t) : Exn world unit :=
  write_file ModeW (output_file self) [fieldnames].

Definition parse_network_response (response_data : payload) : list row :=
  Parser.extract response_data.

(** [new_data] is a payload ([dict]) or rows already parsed ([list]). *)
Definition update_csv_realtime (self : t) (new_data : payload + list row)
    (w : world) : t * world :=
  let parsed_rows :=
    match new_data with
    | inl response_data => parse_network_response response_data
    | inr rows => rows
    end in
  match parsed_rows with
  | [] => (self, w)
  | _ =>
      let '(uc, new_unique_rows) :=
        offer_all (unique_combinations self) parsed_rows in
      let self' := mk (output_file self) (all_data self ++ parsed_rows) uc in
      match new_unique_rows with
      | [] => (self', w)
      | _ =>
          (self',
           run_try
             (try_except
                (write_file ModeA (output_file self)
                            (map csv_of_row new_unique_rows))
                (print_error "Error updating CSV file"))
             w)
      end
  end.

Definition regenerate_sorted_csv (self : t) (w : world) : world :=
  let sorted_data := sorted_data (unique_combinations self) in
  run_try
    (try_except
       (write_file ModeW (output_file self)
                   (fieldnames :: map csv_of_row sorted_data))
       (print_error "Error regenerating CSV"))
    w.

Definition size (self : t) : nat :=
  List.length (unique_combinations self).

(** Successive calls of [update_csv_realtime]. *)
Definition update_all (self : t) (inputs : list (payload + list row))
    (w : world) : t * world :=
  fold_left (fun st new_data => update_csv_realtime (fst st) new_data (snd st))
            inputs (self, w).

(** The rows [update_csv_realtime] takes from its argument. *)
Definition rows_of (new_data : payload + list row) : list row :=
  match new_data with
  | inl response_data => parse_network_response response_data
  | inr rows => rows
  end.

End Realtime.

(* ================================================================= *)
(** * wyndham_monitor.py: [CSVMonitor.read_csv_stats] *)
Module Monitor.

(** [csv.DictReader]: the first line gives the field names; empty lines
    are skipped; a short line is filled with [None], the cells beyond
    the field names are not reachable by name. *)
Definition csv_dict : Type := dict string (option string).

Fixpoint zip_fill (names : list string) (cells : list string)
  : list (string * option string) :=
  match names with
  | [] => []
  | n :: ns =>
      match cells with
      | [] => (n, None) :: zip_fill ns []
      | c :: cs => (n, Some c) :: zip_fill ns cs
      end
  end.

Definition row_dict (names : list string) (cells : csv_line) : csv_dict :=
  fold_left (fun d kv => dict_set String.eqb d (fst kv) (snd kv))
            (zip_fill names cells) [].

Definition is_empty_line (l : csv_line) : bool :=
  match l with
  | [] => true
  | _ => false
  end.

Definition dict_reader (f : csv_file) : list csv_dict :=
  match f with
  | [] => []
  | names :: lines =>
      map (row_dict names) (filter (fun l => negb (is_empty_line l)) lines)
  end.

(** Reading in text mode without [newline='']: [open(csv_file, 'r')]
    hands the text over with every carriage return followed by a line
    feed, and every other carriage return, turned into one line feed.
    The writers open the file with [newline=''] and quote a cell that
    holds one of these characters, so what changes on the way back is the
    inside of such cells.  [pending_cr] tells that the previous character
    was a carriage return, already translated. *)
Fixpoint universal_newlines_chars (pending_cr : bool) (l : list ascii)
  : list ascii :=
  match l with
  | [] => []
  | c :: rest =>
      if Ascii.eqb c "013"%char then
        "010"%char :: universal_newlines_chars true rest
      else if Ascii.eqb c "010"%char then
        if pending_cr then universal_newlines_chars false rest
        else "010"%char :: universal_newlines_chars false rest
      else c :: universal_newlines_chars false rest
  end.

Definition universal_newlines (s : string) : string :=
  string_of_list_ascii
    (universal_newlines_chars false (list_ascii_of_string s)).

Definition text_mode (f : csv_file) : csv_file :=
  map (map universal_newlines) f.

(** [row.get(k, '')]: [None] is Python's [None]. *)
Definition get_str (d : csv_dict) (k : string) : option string :=
  get_or (dict_get String.eqb d k) (Some "").

(** [if v:] on such a value. *)
Definition nonempty (v : option string) : option string :=
  match v with
  | Some s => if String.eqb s "" then None else Some s
  | None => None
  end.

Record stats : Type := mkStats {
  total_rows : Z;
  unique_dates : list string;
  unique_properties : list string;
  room_types : dict string Z;
  availability_by_date : dict string Z;
  availability_by_property : dict string Z;
  presidential_count : Z;
  latest_date : option string;
  earliest_date : option string
}.

Definition initial_stats : stats :=
  mkStats 0 [] [] [] [] [] 0 None None.

(** [s.add(x)] *)
Definition set_add (s : list string) (x : string) : list string :=
  if existsb (String.eqb x) s then s else s ++ [x].

(** [d[k] += n] on a [defaultdict(int)] or a [Counter]. *)
Definition dict_incr (d : dict string Z) (k : string) (n : Z)
  : dict string Z :=
  dict_set String.eqb d k (get_or (dict_get String.eqb d k) 0 + n).

(** [not cur or date < cur] *)
Definition earlier (cur : option string) (date : string) : bool :=
  match nonempty cur with
  | None => true
  | Some c => String.ltb date c
  end.

Definition later (cur : option string) (date : string) : bool :=
  match nonempty cur with
  | None => true
  | Some c => String.ltb c date
  end.

Definition on_date (date : string) (available : Z) (s : stats) : stats :=
  mkStats (total_rows s)
          (set_add (unique_dates s) date)
          (unique_properties s) (room_types s)
          (dict_incr (availability_by_date s) date available)
          (availability_by_property s) (presidential_count s)
          (if later (latest_date s) date then Some date else latest_date s)
          (if earlier (earliest_date s) date then Some date
           else earliest_date s).

Definition on_offering (offering_id : string) (available : Z) (s : stats)
  : stats :=
  mkStats (total_rows s) (unique_dates s)
          (set_add (unique_properties s) offering_id)
          (room_types s) (availability_by_date s)
          (dict_incr (availability_by_property s) offering_id available)
          (presidential_count s) (latest_date s) (earliest_date s).

Definition on_room_label (room_label : string) (s : stats) : stats :=
  mkStats (total_rows s) (unique_dates s) (unique_properties s)
          (dict_incr (room_types s) room_label 1)
          (availability_by_date s) (availability_by_property s)
          (presidential_count s) (latest_date s) (earliest_date s).

Definition incr_total (s : stats) : stats :=
  mkStats (total_rows s + 1) (unique_dates s) (unique_properties s)
          (room_types s) (availability_by_date s)
          (availability_by_property s) (presidential_count s)
          (latest_date s) (earliest_date s).

Definition incr_presidential (s : stats) : stats :=
  mkStats (total_rows s) (unique_dates s) (unique_properties s)
          (room_types s) (availability_by_date s)
          (availability_by_property s) (presidential_count s + 1)
          (latest_date s) (earliest_date s).

(** [needle in v]: [TypeError] when [v] is [None]. *)
Definition str_in_val (needle : string) (v : option string)
  : Exn stats bool :=
  lift_opt (option_map (str_in needle) v).

(** Body of [for row in reader]. *)
Definition visit_row (row : csv_dict) : Exn stats unit :=
  modify incr_total ;;;
  let date := get_str row "date" in
  let offering_id := get_str row "offeringId" in
  let room_label := get_str row "invenOffrngLabel" in
  available <-
    lift_opt
      match dict_get String.eqb row "availableCount" with
      | None => py_int (PyInt 0)
      | Some None => py_int PyNone
      | Some (Some s) => py_int (PyStr s)
      end ;;
  match nonempty date with
  | Some date => modify (on_date date available)
  | None => ret tt
  end ;;;
  match nonempty offering_id with
  | Some offering_id => modify (on_offering offering_id available)
  | None => ret tt
  end ;;;
  match nonempty room_label with
  | Some room_label =>
      modify (on_room_label room_label) ;;;
      if str_in "Presidential" room_label then modify incr_presidential
      else
        in_id <- str_in_val "Presidential" offering_id ;;
        if in_id then modify incr_presidential else ret tt
  | None => ret tt
  end.

(** [read_csv_stats()]; [content] is the file as it was written, [None]
    when it does not exist or cannot be read; it is read in text mode.
    [file_size] is not part of the model. *)
Definition read_csv_stats (content : option csv_file) : stats :=
  match content with
  | None => initial_stats
  | Some f =>
      run_try (for_each visit_row (dict_reader (text_mode f))) initial_stats
  end.

End Monitor.

(* ================================================================= *)
(** * The traversal, flattened

    The inventory entries the parser reaches, in the order it reaches
    them, each with the context the loops have built for it: the offering
    label, the offering id to display and the date of the day. *)

Record entry : Type := mkEntry {
  e_offering : offering;
  e_day : calendar_day;
  e_inventory : inventory
}.

Definition e_offering_id (e : entry) : string :=
  get_or (off_offeringId (e_offering e)) "".

Definition e_offering_label (e : entry) : string :=
  get_or (off_offeringLabel (e_offering e)) "".

Definition e_label (e : entry) : string :=
  get_or (inv_invenOffrngLabel (e_inventory e)) "".

Definition e_count (e : entry) : pyval :=
  get_or (inv_availableCount (e_inventory e)) (PyStr "0").

(** The row built from an entry. *)
Definition entry_row (e : entry) : row :=
  mkRow (get_or (day_date (e_day e)) "")
        (Parser.display_offering_id (e_offering_id e) (e_offering_label e))
        (get_or (inv_inventoryOfferingHashKey (e_inventory e)) "")
        (Parser.display_label (e_offering_label e) (e_label e))
        (e_count e).

Definition entries_of_day (o : offering) (d : calendar_day) : list entry :=
  if truthy (get_or (day_available d) (PyBool false))
  then map (mkEntry o d) (get_or (day_inventoryOfferings d) [])
  else [].

Definition entries_of_offering (o : offering) : list entry :=
  flat_map (fun a => flat_map (entries_of_day o) (get_or (acc_calendarDays a) []))
           (get_or (off_accomdationClasses o) []).

Definition entries_of_resort (r : resort) : list entry :=
  if truthy (get_or (res_hasAvailableUnits r) (PyBool false))
  then flat_map entries_of_offering (get_or (res_resortOfferings r) [])
  else [].

Definition entries (data : payload) : list entry :=
  flat_map entries_of_resort (get_or (resorts data) []).

(** An entry is kept when its count is an integer greater than 0. *)
Definition positive (e : entry) : bool :=
  match py_int (e_count e) with
  | Some n => 0 <? n
  | None => false
  end.

Definition parsable (e : entry) : bool :=
  match py_int (e_count e) with
  | Some _ => true
  | None => false
  end.

(** What the parser returns, read off the flattened traversal: the rows
    of the positive entries up to the first entry whose count is not an
    integer. *)
Fixpoint emitted (es : list entry) : list row :=
  match es with
  | [] => []
  | e :: rest =>
      match py_int (e_count e) with
      | None => []
      | Some n => if 0 <? n then entry_row e :: emitted rest else emitted rest
      end
  end.

(** The entries the traversal reaches: those before the first entry
    whose count is not an integer. *)
Fixpoint reached (es : list entry) : list entry :=
  match es with
  | [] => []
  | e :: rest => if parsable e then e :: reached rest else []
  end.

(** The parser of the specification, section 4.1 rule 5: an entry whose
    count is not an integer is skipped and the traversal goes on. *)
Definition extract_skipping (data : payload) : list row :=
  map entry_row (filter positive (entries data)).

(** The body of the innermost loop at an entry. *)
Definition visit_entry (e : entry) : Exn (list row) unit :=
  Parser.visit_inventory
    (e_offering_label e)
    (Parser.display_offering_id (e_offering_id e) (e_offering_label e))
    (get_or (day_date (e_day e)) "")
    (e_inventory e).

(** Keys are distinct and each record is stored under its own key. *)
Definition ledger_ok (uc : ledger) : Prop :=
  NoDup (dict_keys uc) /\ Forall (fun kv => fst kv = key_of (snd kv)) uc.

(** A row counted as presidential by the specification. *)
Definition presidential (r : row) : bool :=
  str_in "Presidential" (offeringId r) ||
  str_in "Presidential" (invenOffrngLabel r).

(** A file as the sinks write it: the header, then one line per row.
    The sinks write one line per record of the ledger, so [rows] is what
    a sink has written when no two of its rows share an identity key. *)
Definition sink_file (rows : list row) : csv_file :=
  fieldnames :: map csv_of_row rows.

(* ================================================================= *)
(** * Sample data *)

(** A payload with one resort, one offering and one available day holding
    the given inventory entries. *)
Definition sample_payload (offering_id offering_label : string)
    (invs : list inventory) : payload :=
  mkPayload
    (Some [mkResort (Some (PyBool true))
             (Some [mkOffering (Some offering_id) (Some offering_label)
                      (Some [mkAccommodation
                               (Some [mkDay (Some (PyBool true))
                                            (Some "2025-06-01")
                                            (Some invs)])])])]).

Definition sample_offering (offering_id offering_label : string)
    (invs : list inventory) : offering :=
  mkOffering (Some offering_id) (Some offering_label)
    (Some [mkAccommodation
             (Some [mkDay (Some (PyBool true)) (Some "2025-06-01")
                          (Some invs)])]).

Definition inv_two : inventory :=
  mkInventory (Some (PyStr "2")) (Some "H1") (Some "King Suite").

(** The same slot as [inv_two] with another count. *)
Definition inv_five : inventory :=
  mkInventory (Some (PyStr "5")) (Some "H1") (Some "King Suite").

Definition inv_zero : inventory :=
  mkInventory (Some (PyStr "0")) (Some "H0") (Some "Queen Suite").

Definition inv_bad : inventory :=
  mkInventory (Some (PyStr "abc")) (Some "H2") (Some "Queen Suite").

Definition inv_queen : inventory :=
  mkInventory (Some (PyInt 3)) (Some "H3") (Some "Queen Suite").

(** An entry without a label. *)
Definition inv_nolabel : inventory :=
  mkInventory (Some (PyStr "3")) (Some "H4") None.

Definition row_two : row :=
  mkRow "2025-06-01" "A1" "H1" "King Suite" (PyStr "2").

Definition row_five : row :=
  mkRow "2025-06-01" "A1" "H1" "King Suite" (PyStr "5").

Definition row_queen : row :=
  mkRow "2025-06-01" "A1" "H3" "Queen Suite" (PyInt 3).

Definition row_nolabel : row :=
  mkRow "2025-06-01" "A1 Presidential" "H4" "" (PyStr "3").

(** A world in which no path can be opened, and one in which all can. *)
Definition closed_world : world := mkWorld (fun _ => false) [] [].
Definition open_world : world := mkWorld (fun _ => true) [] [].

Definition file_a : path * option payload :=
  ("a-network-response.txt", Some (sample_payload "A1" "Ocean" [inv_two])).

Definition file_b : path * option payload :=
  ("b-network-response.txt", Some (sample_payload "A1" "Ocean" [inv_five])).

Definition file_c : path * option payload :=
  ("c-network-response.txt", Some (sample_payload "A1" "Ocean" [inv_queen])).

(** The creation of the third file, and a reader of the watched
    directory that finds its contents. *)
Definition event_c : Watcher.fs_event :=
  Watcher.mkEvent false "c-network-response.txt".

Definition event_dir : Watcher.fs_event :=
  Watcher.mkEvent true "screens/network-response.txt".

Definition read_c (p : path) : option payload := snd file_c.




(* ================================================================= *)
(** * Invariants of the running pipeline *)

(** The entries an insertion of [news] adds to the dictionary. *)
Definition entries_of_rows (news : list row) : ledger :=
  map (fun r => (key_of r, r)) news.

(** The live file mirrors the ledger: the header, then one line per
    stored record, in insertion order. *)
Definition live_file (self : Watcher.t) (w : world) : Prop :=
  read_file w (Watcher.output_csv self)
  = Some (fieldnames
            :: map csv_of_row (dict_values (Watcher.unique_combinations self))).

(* ================================================================= *)
(** * Reading back what the sink wrote *)







(* ================================================================= *)
(** * The scanners: which stays a month offers

    [process_month_left_panel] is the same in
    wyndham_realtime_scanner.py (lines 515-564),
    wyndham_scan_with_network.py (lines 392-442) and
    wyndham_scan_screenshots.py.  The lists of day numbers are read from
    the page once, before the loop; what follows is the part of the loop
    that decides, from these lists alone, where a stay ends and whether
    the loop goes on to click it. *)
Module Scanner.

Definition STAY_LENGTH_DAYS : Z := 3.

Inductive panel : Type := LeftPanel | RightPanel.

(** [max(l)] for a list that is not empty. *)
Definition list_max (x : Z) (l : list Z) : Z := fold_left Z.max l x.

(** [end_day], [end_panel] and [end_clickable] for a start day. *)
Definition stay_end (days_in_left : Z) (left_enabled right_enabled : list Z)
    (start : Z) : Z * panel * bool :=
  let end_ := start + STAY_LENGTH_DAYS in
  if end_ <=? days_in_left
  then (end_, LeftPanel, existsb (Z.eqb end_) left_enabled)
  else (end_ - days_in_left, RightPanel,
        existsb (Z.eqb (end_ - days_in_left)) right_enabled).

(** The stays the loop tries to click, in order: for each start in
    [left_enabled], the one whose end is selectable; none when
    [left_all] is empty. *)
Definition selectable_stays (left_all left_enabled right_enabled : list Z)
  : list (Z * Z * panel) :=
  match left_all with
  | [] => []
  | x :: rest =>
      let days_in_left := list_max x rest in
      flat_map
        (fun start =>
           let '(end_day, end_panel, end_clickable) :=
             stay_end days_in_left left_enabled right_enabled start in
           if end_clickable then [(start, end_day, end_panel)] else [])
        left_enabled
  end.

End Scanner.

(** The file holds the header and, in some order, one line per stored
    record. *)
Definition file_covers_ledger (self : Watcher.t) (w : world) : Prop :=
  exists lines,
    read_file w (Watcher.output_csv self) = Some (fieldnames :: lines) /\
    Permutation lines
                (map csv_of_row
                     (dict_values (Watcher.unique_combinations self))).

(* ================================================================= *)
(** * Strings *)

Lemma prefix_app (n h : string) :
  String.prefix n h = true <-> exists b, h = (n ++ b)%string.
Proof.
  revert h. induction n as [|c n IH]; intros h; simpl.
  - destruct h; simpl; split; eauto.
  - destruct h as [|c' h]; simpl.
    + split; [discriminate | intros [b Hb]; discriminate].
    + destruct (ascii_dec c c') as [->|Hne].
      * rewrite IH. split; intros [b Hb]; exists b; congruence.
      * split; [discriminate | intros [b Hb]; congruence].
Qed.

Lemma str_in_nil (n : string) : str_in n "" = String.prefix n "".
Proof. simpl. now destruct n. Qed.

Lemma str_in_cons (n : string) (c : ascii) (h : string) :
  str_in n (String c h) = String.prefix n (String c h) || str_in n h.
Proof.
  change (str_in n (String c h))
    with (if String.prefix n (String c h) then true else str_in n h).
  now destruct (String.prefix n (String c h)).
Qed.

(** [str_in] is substring containment. *)
Lemma str_in_spec (n h : string) :
  str_in n h = true <-> exists a b, h = (a ++ n ++ b)%string.
Proof.
  induction h as [|c h IH].
  - rewrite str_in_nil, prefix_app. split.
    + intros [b Hb]. exists "", b. exact Hb.
    + intros [a [b Hb]]. destruct a; simpl in Hb; [eauto|discriminate].
  - rewrite str_in_cons, orb_true_iff, IH, prefix_app. split.
    + intros [[b Hb]|[a [b Hb]]].
      * exists "", b. exact Hb.
      * exists (String c a), b. simpl. congruence.
    + intros [a [b Hb]]. destruct a as [|c' a]; simpl in Hb.
      * left. eauto.
      * right. exists a, b. congruence.
Qed.

(* ================================================================= *)
(** * Loops in the monad *)

Lemma for_each_app {S A : Type} (f : A -> Exn S unit) (l1 l2 : list A)
      (s : S) :
  for_each f (l1 ++ l2) s = (for_each f l1 ;;; for_each f l2) s.
Proof.
  revert s. induction l1 as [|x l1 IH]; intros s; simpl.
  - reflexivity.
  - unfold bind. destruct (f x s) as [s' [[]|]]; [|reflexivity].
    rewrite IH. reflexivity.
Qed.

Lemma for_each_ext {S A : Type} (f g : A -> Exn S unit) (l : list A) :
  (forall x s, In x l -> f x s = g x s) ->
  forall s, for_each f l s = for_each g l s.
Proof.
  induction l as [|x l IH]; intros H s; simpl; [reflexivity|].
  unfold bind. rewrite (H x s (or_introl eq_refl)).
  destruct (g x s) as [s' [[]|]]; [|reflexivity].
  apply IH. intros y t Hy. apply H. now right.
Qed.

(** A loop over the elements of nested lists is the nest of loops. *)
Lemma for_each_flat_map {S A B : Type} (f : B -> Exn S unit)
      (g : A -> list B) (l : list A) (s : S) :
  for_each f (flat_map g l) s = for_each (fun x => for_each f (g x)) l s.
Proof.
  revert s. induction l as [|x l IH]; intros s; [reflexivity|].
  change (flat_map g (x :: l)) with (g x ++ flat_map g l).
  rewrite for_each_app. cbn [for_each]. unfold bind.
  destruct (for_each f (g x) s) as [s' [[]|]]; [|reflexivity].
  apply IH.
Qed.

Lemma for_each_map {S A B : Type} (f : B -> Exn S unit) (g : A -> B)
      (l : list A) (s : S) :
  for_each f (map g l) s = for_each (fun x => f (g x)) l s.
Proof.
  revert s. induction l as [|x l IH]; intros s; simpl; [reflexivity|].
  unfold bind. destruct (f (g x) s) as [s' [[]|]]; [|reflexivity].
  apply IH.
Qed.

(* ================================================================= *)
(** * The parser follows the flattened traversal *)

Lemma visit_day_entries (o : offering) (d : calendar_day) (rows : list row) :
  Parser.visit_day
    (get_or (off_offeringLabel o) "")
    (Parser.display_offering_id (get_or (off_offeringId o) "")
                                (get_or (off_offeringLabel o) ""))
    d rows
  = for_each visit_entry (entries_of_day o d) rows.
Proof.
  unfold Parser.visit_day, entries_of_day.
  destruct (truthy (get_or (day_available d) (PyBool false))); simpl.
  - rewrite for_each_map. reflexivity.
  - reflexivity.
Qed.

Lemma visit_offering_entries (o : offering) (rows : list row) :
  Parser.visit_offering o rows
  = for_each visit_entry (entries_of_offering o) rows.
Proof.
  unfold Parser.visit_offering, entries_of_offering.
  rewrite for_each_flat_map. apply for_each_ext. intros a s _.
  unfold Parser.visit_accommodation.
  rewrite for_each_flat_map. apply for_each_ext. intros d s' _.
  apply visit_day_entries.
Qed.

Lemma visit_resort_entries (r : resort) (rows : list row) :
  Parser.visit_resort r rows
  = for_each visit_entry (entries_of_resort r) rows.
Proof.
  unfold Parser.visit_resort, entries_of_resort.
  destruct (truthy (get_or (res_hasAvailableUnits r) (PyBool false))); simpl.
  - rewrite for_each_flat_map. apply for_each_ext. intros o s _.
    apply visit_offering_entries.
  - reflexivity.
Qed.

Lemma body_entries (data : payload) (rows : list row) :
  Parser.body data rows = for_each visit_entry (entries data) rows.
Proof.
  unfold Parser.body, entries.
  destruct (resorts data) as [[|r rs]|]; try reflexivity.
  simpl get_or. rewrite for_each_flat_map. apply for_each_ext.
  intros x s _. apply visit_resort_entries.
Qed.

(** The loop over entries appends [emitted] and raises exactly when some
    entry is not parsable. *)
Lemma for_each_visit_entry (es : list entry) (rows : list row) :
  for_each visit_entry es rows
  = (rows ++ emitted es, if forallb parsable es then Some tt else None).
Proof.
  revert rows. induction es as [|e es IH]; intros rows; simpl.
  - now rewrite app_nil_r.
  - unfold bind, visit_entry, Parser.visit_inventory, parsable.
    fold (e_count e). unfold bind.
    destruct (py_int (e_count e)) as [n|]; simpl.
    + destruct (0 <? n); simpl.
      * rewrite IH. rewrite <- app_assoc. reflexivity.
      * apply IH.
    + now rewrite app_nil_r.
Qed.

Lemma extract_emitted (data : payload) :
  Parser.extract data = emitted (entries data).
Proof.
  unfold Parser.extract, run_try. rewrite body_entries, for_each_visit_entry.
  reflexivity.
Qed.

Lemma emitted_app_parsable (pre rest : list entry) :
  forallb parsable pre = true ->
  emitted (pre ++ rest) = map entry_row (filter positive pre) ++ emitted rest.
Proof.
  induction pre as [|e pre IH]; simpl; intros H; [reflexivity|].
  apply andb_prop in H. destruct H as [He Hpre].
  unfold parsable in He. unfold positive.
  destruct (py_int (e_count e)) as [n|]; [|discriminate].
  destruct (0 <? n); simpl; rewrite IH by assumption; reflexivity.
Qed.

Lemma emitted_In (es : list entry) (r : row) :
  In r (emitted es) ->
  exists e, In e es /\ positive e = true /\ r = entry_row e.
Proof.
  induction es as [|e es IH]; simpl; [tauto|].
  destruct (py_int (e_count e)) as [n|] eqn:E; [|simpl; tauto].
  destruct (0 <? n) eqn:Hn.
  - intros [<-|H].
    + exists e. repeat split; auto. unfold positive. now rewrite E.
    + destruct (IH H) as [e' [? ?]]. exists e'. tauto.
  - intros H. destruct (IH H) as [e' [? ?]]. exists e'. tauto.
Qed.

(* ================================================================= *)
(** * The parser: filtering, normalization, failure *)

Lemma visit_inventory_nonpositive
      (ol did date : string) (inv : inventory) (rows : list row) (n : Z) :
  py_int (get_or (inv_availableCount inv) (PyStr "0")) = Some n -> n <= 0 ->
  Parser.visit_inventory ol did date inv rows = (rows, Some tt).
Proof.
  intros Hn Hle. unfold Parser.visit_inventory, bind. rewrite Hn. simpl.
  destruct (0 <? n) eqn:E; [apply Z.ltb_lt in E; lia | reflexivity].
Qed.

Lemma entry_row_positive (e : entry) :
  positive e = true ->
  exists n, py_int (availableCount (entry_row e)) = Some n /\ 0 < n.
Proof.
  unfold positive. simpl. destruct (py_int (e_count e)) as [n|]; [|discriminate].
  intros H. exists n. split; [reflexivity | now apply Z.ltb_lt].
Qed.

(** C4 (filter correctness).  A payload without [resorts], or with an
    empty one, gives no rows; visiting a resort whose [hasAvailableUnits]
    is falsy, a day whose [available] is falsy, or an inventory entry
    whose count parses to 0 leaves [data_rows] as it was and does not
    raise; every row the parser returns has a count that parses to an
    integer strictly greater than 0. *)
Theorem filter_correctness :
  Parser.extract (mkPayload None) = [] /\
  Parser.extract (mkPayload (Some [])) = [] /\
  (forall (r : resort) (rows : list row),
      truthy (get_or (res_hasAvailableUnits r) (PyBool false)) = false ->
      Parser.visit_resort r rows = (rows, Some tt)) /\
  (forall (offering_label display_id : string) (d : calendar_day)
          (rows : list row),
      truthy (get_or (day_available d) (PyBool false)) = false ->
      Parser.visit_day offering_label display_id d rows = (rows, Some tt)) /\
  (forall (offering_label display_id date : string) (inv : inventory)
          (rows : list row),
      py_int (get_or (inv_availableCount inv) (PyStr "0")) = Some 0 ->
      Parser.visit_inventory offering_label display_id date inv rows
      = (rows, Some tt)) /\
  (forall (data : payload) (r : row),
      In r (Parser.extract data) ->
      exists n, py_int (availableCount r) = Some n /\ 0 < n).
Proof.
  repeat split.
  - intros r rows H. unfold Parser.visit_resort. now rewrite H.
  - intros ol did d rows H. unfold Parser.visit_day. now rewrite H.
  - intros ol did date inv rows H.
    apply visit_inventory_nonpositive with (n := 0); [assumption | lia].
  - intros data r Hr. rewrite extract_emitted in Hr.
    apply emitted_In in Hr. destruct Hr as [e [_ [Hpos ->]]].
    now apply entry_row_positive.
Qed.

Lemma entries_of_offering_offering (o : offering) (e : entry) :
  In e (entries_of_offering o) -> e_offering e = o.
Proof.
  unfold entries_of_offering. intros H.
  apply in_flat_map in H. destruct H as [a [_ H]].
  apply in_flat_map in H. destruct H as [d [_ H]].
  unfold entries_of_day in H.
  destruct (truthy (get_or (day_available d) (PyBool false))); [|contradiction].
  apply in_map_iff in H. destruct H as [inv [<- _]]. reflexivity.
Qed.

Lemma emitted_reached (es : list entry) :
  emitted es = map entry_row (filter positive (reached es)).
Proof.
  induction es as [|e es IH]; [reflexivity|].
  cbn [emitted reached]. unfold parsable, positive.
  destruct (py_int (e_count e)) as [n|] eqn:E; [|reflexivity].
  cbn [filter]. unfold positive. rewrite E.
  destruct (0 <? n); cbn [map]; now rewrite IH.
Qed.

Lemma reached_In (es : list entry) (e : entry) :
  In e (reached es) -> In e es.
Proof.
  induction es as [|x es IH]; [intros []|].
  cbn [reached]. destruct (parsable x); [|intros []].
  intros [<-|H]; [now left | right; now apply IH].
Qed.

(** C5 (Presidential Reserve normalization).  Visiting an offering
    appends to [data_rows] one row for each inventory entry under the
    offering that is reached and has a count greater than 0, in
    traversal order, and nothing else.  Each of these rows has the date
    of its day, the hash key and the count of its entry, and
    - as offering id: the offering's id followed by
      [" Presidential Reserve"] when the offering label contains
      ["Presidential Reserve"] and the id does not; the id unchanged when
      both contain it, and when the label does not contain it;
    - as label: the label of its own inventory entry followed by
      [" (Presidential Reserve)"] when the offering label contains
      ["Presidential Reserve"] and the inventory label does not; the
      inventory label unchanged when both contain it, and when the
      offering label does not contain it. *)
Theorem presidential_reserve_normalization :
  forall (o : offering) (rows : list row),
    let id := get_or (off_offeringId o) "" in
    let label := get_or (off_offeringLabel o) "" in
    exists (new_id : string) (new_label : string -> string),
      (str_in "Presidential Reserve" label = true ->
       str_in "Presidential Reserve" id = false ->
       new_id = (id ++ " Presidential Reserve")%string) /\
      (str_in "Presidential Reserve" label = true ->
       str_in "Presidential Reserve" id = true ->
       new_id = id) /\
      (str_in "Presidential Reserve" label = false -> new_id = id) /\
      (forall inv_label,
          str_in "Presidential Reserve" label = true ->
          str_in "Presidential Reserve" inv_label = false ->
          new_label inv_label
          = (inv_label ++ " (Presidential Reserve)")%string) /\
      (forall inv_label,
          str_in "Presidential Reserve" label = true ->
          str_in "Presidential Reserve" inv_label = true ->
          new_label inv_label = inv_label) /\
      (forall inv_label,
          str_in "Presidential Reserve" label = false ->
          new_label inv_label = inv_label) /\
      fst (Parser.visit_offering o rows)
      = rows
          ++ map (fun e =>
                    mkRow (get_or (day_date (e_day e)) "")
                          new_id
                          (get_or (inv_inventoryOfferingHashKey
                                     (e_inventory e)) "")
                          (new_label
                             (get_or (inv_invenOffrngLabel (e_inventory e))
                                     ""))
                          (get_or (inv_availableCount (e_inventory e))
                                  (PyStr "0")))
                 (filter positive (reached (entries_of_offering o))).
Proof.
  intros o rows id label.
  exists (Parser.display_offering_id id label), (Parser.display_label label).
  unfold Parser.display_offering_id, Parser.display_label, Parser.PR.
  split; [intros H1 H2; now rewrite H1, H2|].
  split; [intros H1 H2; now rewrite H1, H2|].
  split; [intros H1; now rewrite H1|].
  split; [intros l H1 H2; now rewrite H1, H2|].
  split; [intros l H1 H2; now rewrite H1, H2|].
  split; [intros l H1; now rewrite H1|].
  rewrite visit_offering_entries, for_each_visit_entry. cbn [fst].
  f_equal. rewrite emitted_reached. apply map_ext_in.
  intros e He. apply filter_In in He. destruct He as [He _].
  apply reached_In in He.
  pose proof (entries_of_offering_offering _ _ He) as Ho.
  unfold entry_row, e_offering_id, e_offering_label, e_label, e_count.
  rewrite Ho. reflexivity.
Qed.

(** The parser returns what the skipping parser returns when every count
    it meets is an integer. *)
Lemma extract_all_parsable (data : payload) :
  forallb parsable (entries data) = true ->
  Parser.extract data = extract_skipping data.
Proof.
  intros H. rewrite extract_emitted. unfold extract_skipping.
  rewrite <- (app_nil_r (entries data)) at 1.
  rewrite emitted_app_parsable by assumption. simpl. now rewrite app_nil_r.
Qed.

(** C2, as the code has it.  When the traversal reaches an entry whose
    count is not an integer, the exception leaves the loops: the parser
    returns the rows of the entries before it and nothing of that entry
    or of anything after it, and the exception does not leave the
    parser. *)
Theorem parse_stops_at_unparsable_count :
  forall (data : payload) (pre post : list entry) (bad : entry),
    entries data = pre ++ bad :: post ->
    forallb parsable pre = true ->
    py_int (e_count bad) = None ->
    Parser.extract data = map entry_row (filter positive pre) /\
    raised (Parser.body data) [] = true.
Proof.
  intros data pre post bad He Hpre Hbad. split.
  - rewrite extract_emitted, He, emitted_app_parsable by assumption.
    simpl. rewrite Hbad. now rewrite app_nil_r.
  - unfold raised. rewrite body_entries, for_each_visit_entry, He. simpl.
    rewrite forallb_app. simpl. unfold parsable at 2. rewrite Hbad.
    now rewrite andb_false_r.
Qed.

(* ================================================================= *)
(** * The order of the sort key *)

Lemma str_compare_OT (a b : string) :
  String.compare a b = String_as_OT.compare a b.
Proof.
  revert b. induction a as [|c a IH]; destruct b as [|c' b]; simpl;
    try reflexivity.
Qed.

Lemma str_compare_refl (s : string) : String.compare s s = Eq.
Proof.
  induction s as [|c s IH]; simpl; [reflexivity|].
  unfold Ascii.compare. now rewrite N.compare_refl.
Qed.

Lemma str_compare_lt_trans (a b c : string) :
  String.compare a b = Lt -> String.compare b c = Lt ->
  String.compare a c = Lt.
Proof.
  rewrite !str_compare_OT. intros H1 H2.
  exact (RelationClasses.StrictOrder_Transitive (R := String_as_OT.lt)
           a b c H1 H2).
Qed.

Lemma str_compare_gt_lt (a b : string) :
  String.compare a b = Gt -> String.compare b a = Lt.
Proof.
  intros H. rewrite String.compare_antisym, H. reflexivity.
Qed.

Lemma key3_compare_refl (a : key3) : key3_compare a a = Eq.
Proof.
  destruct a as [[a1 a2] a3]. simpl. now rewrite !str_compare_refl.
Qed.

Lemma key3_compare_eq (a b : key3) : key3_compare a b = Eq -> a = b.
Proof.
  destruct a as [[a1 a2] a3], b as [[b1 b2] b3]. simpl.
  destruct (String.compare a1 b1) eqn:E1; try discriminate.
  destruct (String.compare a2 b2) eqn:E2; try discriminate.
  intros E3.
  apply String.compare_eq_iff in E1, E2, E3. congruence.
Qed.

Lemma key3_compare_antisym (a b : key3) :
  key3_compare b a = CompOpp (key3_compare a b).
Proof.
  destruct a as [[a1 a2] a3], b as [[b1 b2] b3]. simpl.
  rewrite (String.compare_antisym a1 b1), (String.compare_antisym a2 b2),
    (String.compare_antisym a3 b3).
  destruct (String.compare b1 a1), (String.compare b2 a2),
    (String.compare b3 a3); reflexivity.
Qed.

Lemma key3_compare_lt_trans (a b c : key3) :
  key3_compare a b = Lt -> key3_compare b c = Lt -> key3_compare a c = Lt.
Proof.
  destruct a as [[a1 a2] a3], b as [[b1 b2] b3], c as [[c1 c2] c3]. simpl.
  destruct (String.compare a1 b1) eqn:E1; try discriminate.
  - apply String.compare_eq_iff in E1. subst b1.
    destruct (String.compare a1 c1) eqn:F1; try discriminate; [|reflexivity].
    destruct (String.compare a2 b2) eqn:E2; try discriminate.
    + apply String.compare_eq_iff in E2. subst b2.
      destruct (String.compare a2 c2) eqn:F2; try discriminate; [|reflexivity].
      apply str_compare_lt_trans.
    + intros _.
      destruct (String.compare b2 c2) eqn:F2; try discriminate.
      * apply String.compare_eq_iff in F2. subst c2. now rewrite E2.
      * now rewrite (str_compare_lt_trans _ _ _ E2 F2).
  - intros _.
    destruct (String.compare b1 c1) eqn:F1; try discriminate.
    + apply String.compare_eq_iff in F1. subst c1. now rewrite E1.
    + now rewrite (str_compare_lt_trans _ _ _ E1 F1).
Qed.

Lemma key3_ltb_irrefl (a : key3) : key3_ltb a a = false.
Proof. unfold key3_ltb. now rewrite key3_compare_refl. Qed.

Lemma key3_ltb_asym (a b : key3) :
  key3_ltb a b = true -> key3_ltb b a = false.
Proof.
  unfold key3_ltb. rewrite (key3_compare_antisym a b).
  destruct (key3_compare a b); simpl; congruence.
Qed.

Lemma key3_le_trans (a b c : key3) :
  key3_ltb b a = false -> key3_ltb c b = false -> key3_ltb c a = false.
Proof.
  unfold key3_ltb. intros Hba Hcb.
  destruct (key3_compare c a) eqn:Hca; try reflexivity.
  destruct (key3_compare a b) eqn:Hab.
  - apply key3_compare_eq in Hab. subst b. now rewrite Hca in Hcb.
  - now rewrite (key3_compare_lt_trans _ _ _ Hca Hab) in Hcb.
  - rewrite (key3_compare_antisym a b), Hab in Hba. discriminate.
Qed.

Lemma key3_le_antisym (a b : key3) :
  key3_ltb a b = false -> key3_ltb b a = false -> a = b.
Proof.
  unfold key3_ltb. rewrite (key3_compare_antisym a b).
  destruct (key3_compare a b) eqn:E; simpl; try discriminate.
  intros _ _. now apply key3_compare_eq.
Qed.

(** The order is the lexicographic one on the three fields. *)
Lemma key3_ltb_lex (a1 a2 a3 b1 b2 b3 : string) :
  key3_ltb (a1, a2, a3) (b1, b2, b3) = true <->
  String.ltb a1 b1 = true \/
  a1 = b1 /\ (String.ltb a2 b2 = true \/
              a2 = b2 /\ String.ltb a3 b3 = true).
Proof.
  unfold key3_ltb, String.ltb. simpl.
  destruct (String.compare a1 b1) eqn:E1.
  - apply String.compare_eq_iff in E1. subst b1.
    destruct (String.compare a2 b2) eqn:E2.
    + apply String.compare_eq_iff in E2. subst b2.
      destruct (String.compare a3 b3); intuition congruence.
    + intuition congruence.
    + split; [discriminate|].
      intros [H|[_ [H|[H _]]]]; try discriminate.
      subst b2. rewrite str_compare_refl in E2. discriminate.
  - intuition congruence.
  - split; [discriminate|].
    intros [H|[H _]]; try discriminate.
    subst b1. rewrite str_compare_refl in E1. discriminate.
Qed.

(* ================================================================= *)
(** * [sorted] is a stable sort *)

Section SortedFacts.
Variables A K : Type.
Variable key : A -> K.
Variable ltb : K -> K -> bool.

Hypothesis ltb_irrefl : forall a, ltb a a = false.
Hypothesis ltb_asym : forall a b, ltb a b = true -> ltb b a = false.
Hypothesis le_trans :
  forall a b c, ltb b a = false -> ltb c b = false -> ltb c a = false.

Lemma insert_stable_perm (x : A) (l : list A) :
  Permutation (insert_stable key ltb x l) (x :: l).
Proof.
  induction l as [|y l IH]; simpl; [reflexivity|].
  destruct (ltb (key y) (key x)); [|reflexivity].
  rewrite IH. apply perm_swap.
Qed.

Lemma sorted_perm (l : list A) : Permutation (sorted key ltb l) l.
Proof.
  induction l as [|x l IH]; simpl; [reflexivity|].
  rewrite insert_stable_perm. now constructor.
Qed.

Lemma insert_stable_sorted (x : A) (l : list A) :
  StronglySorted (key_le key ltb) l -> StronglySorted (key_le key ltb) (insert_stable key ltb x l).
Proof.
  induction 1 as [|y l Hl IH Hy]; simpl.
  - constructor; constructor.
  - destruct (ltb (key y) (key x)) eqn:E.
    + constructor; [exact IH|].
      rewrite insert_stable_perm. constructor; [|exact Hy].
      unfold key_le. now apply ltb_asym.
    + constructor; [now constructor|].
      constructor; [exact E|].
      eapply Forall_impl; [|exact Hy].
      intros z Hz. unfold key_le in *. eapply le_trans; eassumption.
Qed.

Lemma sorted_sorted (l : list A) : StronglySorted (key_le key ltb) (sorted key ltb l).
Proof.
  induction l as [|x l IH]; simpl; [constructor|].
  now apply insert_stable_sorted.
Qed.

(** Stability: the elements with a given key come out in the order in
    which they came in. *)
Lemma insert_stable_filter (p : A -> bool) (x : A) (l : list A) :
  (forall y, p x = true -> p y = true -> ltb (key y) (key x) = false) ->
  filter p (insert_stable key ltb x l) = filter p (x :: l).
Proof.
  intros Hp. induction l as [|y l IH]; [reflexivity|].
  simpl insert_stable. destruct (ltb (key y) (key x)) eqn:E; [|reflexivity].
  simpl in *. rewrite IH.
  destruct (p x) eqn:Px, (p y) eqn:Py; try reflexivity.
  rewrite (Hp y eq_refl Py) in E. discriminate.
Qed.

Lemma sorted_stable (p : A -> bool) (l : list A) :
  (forall x y, p x = true -> p y = true -> key x = key y) ->
  filter p (sorted key ltb l) = filter p l.
Proof.
  intros Hp. induction l as [|x l IH]; [reflexivity|].
  simpl sorted. rewrite insert_stable_filter.
  - simpl. now rewrite IH.
  - intros y Px Py. rewrite (Hp x y Px Py). apply ltb_irrefl.
Qed.

(** A sorted arrangement is unique when equal keys mean equal elements. *)
Lemma sorted_unique (l1 l2 : list A) :
  (forall a b, ltb a b = false -> ltb b a = false -> a = b) ->
  (forall x y, In x l1 -> In y l1 -> key x = key y -> x = y) ->
  StronglySorted (key_le key ltb) l1 -> StronglySorted (key_le key ltb) l2 ->
  Permutation l1 l2 -> l1 = l2.
Proof.
  intros Hanti. revert l2.
  induction l1 as [|a t1 IH]; intros l2 Hinj S1 S2 P.
  - apply Permutation_nil in P. now subst.
  - destruct l2 as [|b t2].
    + apply Permutation_sym, Permutation_nil in P. discriminate.
    + apply StronglySorted_inv in S1. destruct S1 as [S1 F1].
      apply StronglySorted_inv in S2. destruct S2 as [S2 F2].
      assert (Hab : a = b).
      { assert (Ha : In a (b :: t2))
          by (eapply Permutation_in; [exact P | now left]).
        assert (Hb : In b (a :: t1))
          by (eapply Permutation_in;
              [apply Permutation_sym; exact P | now left]).
        destruct Ha as [Ha|Ha]; [now symmetry|].
        destruct Hb as [Hb|Hb]; [assumption|].
        rewrite Forall_forall in F1, F2.
        apply Hinj; [now left | now right |].
        apply Hanti; [apply (F2 a Ha) | apply (F1 b Hb)]. }
      subst b. f_equal.
      apply IH; try assumption.
      * intros x y Hx Hy. apply Hinj; now right.
      * eapply Permutation_cons_inv; exact P.
Qed.
End SortedFacts.

(* ================================================================= *)
(** * Dictionaries *)

Section DictFacts.
Variables K V : Type.
Variable eqb : K -> K -> bool.
Hypothesis eqb_eq : forall a b, eqb a b = true <-> a = b.

Lemma dict_eqb_refl (k : K) : eqb k k = true.
Proof. now apply eqb_eq. Qed.

Lemma dict_eqb_neq (a b : K) : a <> b -> eqb a b = false.
Proof.
  intros H. destruct (eqb a b) eqn:E; [|reflexivity].
  now apply eqb_eq in E.
Qed.

Lemma dict_get_set_same (d : dict K V) (k : K) (v : V) :
  dict_get eqb (dict_set eqb d k v) k = Some v.
Proof.
  induction d as [|[k' v'] d IH]; simpl.
  - now rewrite dict_eqb_refl.
  - destruct (eqb k k') eqn:E; simpl; rewrite E; [reflexivity | exact IH].
Qed.

Lemma dict_get_set_other (d : dict K V) (k k' : K) (v : V) :
  k' <> k ->
  dict_get eqb (dict_set eqb d k v) k' = dict_get eqb d k'.
Proof.
  intros Hne. induction d as [|[k0 v0] d IH]; simpl.
  - now rewrite dict_eqb_neq.
  - destruct (eqb k k0) eqn:E; simpl.
    + apply eqb_eq in E. subst k0. now rewrite dict_eqb_neq.
    + now rewrite IH.
Qed.

Lemma dict_get_None (d : dict K V) (k : K) :
  dict_get eqb d k = None <-> ~ In k (dict_keys d).
Proof.
  induction d as [|[k' v'] d IH]; simpl; [tauto|].
  destruct (eqb k k') eqn:E.
  - apply eqb_eq in E. subst k'. split; [discriminate | tauto].
  - rewrite IH. split.
    + intros H [H'|H']; [|tauto]. subst k'.
      now rewrite dict_eqb_refl in E.
    + tauto.
Qed.

(** Assigning to a key that is not there puts it at the end. *)
Lemma dict_set_fresh (d : dict K V) (k : K) (v : V) :
  dict_get eqb d k = None -> dict_set eqb d k v = d ++ [(k, v)].
Proof.
  induction d as [|[k' v'] d IH]; simpl; [reflexivity|].
  destruct (eqb k k'); [discriminate|]. intros H. now rewrite IH.
Qed.

Lemma dict_mem_get (d : dict K V) (k : K) :
  dict_mem eqb d k = false <-> dict_get eqb d k = None.
Proof.
  unfold dict_mem. destruct (dict_get eqb d k); split; congruence.
Qed.
End DictFacts.

Lemma key4_eqb_eq (a b : key4) : key4_eqb a b = true <-> a = b.
Proof.
  destruct a as [[[a1 a2] a3] a4], b as [[[b1 b2] b3] b4]. simpl.
  rewrite !andb_true_iff, !String.eqb_eq. split.
  - intros [[[-> ->] ->] ->]. reflexivity.
  - intros H. inversion H. auto.
Qed.

(* ================================================================= *)
(** * The ledger *)

Lemma keep_first_present (uc : ledger) (r : row) :
  ledger_mem uc (key_of r) = true -> ResponseToCsv.keep_first uc r = uc.
Proof.
  intros H. unfold ResponseToCsv.keep_first. now rewrite H.
Qed.

Lemma keep_first_absent (uc : ledger) (r : row) :
  ledger_mem uc (key_of r) = false ->
  ResponseToCsv.keep_first uc r = uc ++ [(key_of r, r)].
Proof.
  intros H. unfold ResponseToCsv.keep_first. rewrite H. simpl.
  apply dict_set_fresh. now apply dict_mem_get.
Qed.

Lemma keep_first_ok (uc : ledger) (r : row) :
  ledger_ok uc -> ledger_ok (ResponseToCsv.keep_first uc r).
Proof.
  intros [Hnd Hk]. destruct (ledger_mem uc (key_of r)) eqn:E.
  - rewrite keep_first_present by assumption. now split.
  - rewrite keep_first_absent by assumption. split.
    + unfold dict_keys. rewrite map_app. simpl.
      apply NoDup_app; [exact Hnd | repeat constructor; simpl; tauto |].
      intros k Hin [<-|[]].
      apply dict_mem_get in E.
      apply (dict_get_None key4_eqb key4_eqb_eq) in E. contradiction.
    + apply Forall_app. split; [exact Hk | now repeat constructor].
Qed.

Lemma fold_keep_first_ok (rows : list row) (uc : ledger) :
  ledger_ok uc -> ledger_ok (fold_left ResponseToCsv.keep_first rows uc).
Proof.
  revert uc. induction rows as [|r rows IH]; intros uc H; simpl; [exact H|].
  apply IH. now apply keep_first_ok.
Qed.

Lemma ledger_ok_nil : ledger_ok [].
Proof. split; constructor. Qed.

(** First wins: after the loop, a key holds what it held before or, if it
    was not there, the first row offered with that key. *)
Lemma fold_keep_first_get (rows : list row) (uc : ledger) (k : key4) :
  ledger_get (fold_left ResponseToCsv.keep_first rows uc) k
  = match ledger_get uc k with
    | Some r => Some r
    | None => find (fun r => key4_eqb k (key_of r)) rows
    end.
Proof.
  revert uc. induction rows as [|r rows IH]; intros uc; simpl.
  - now destruct (ledger_get uc k).
  - rewrite IH. unfold ResponseToCsv.keep_first.
    destruct (ledger_mem uc (key_of r)) eqn:E; simpl.
    + destruct (ledger_get uc k) eqn:G; [reflexivity|].
      destruct (key4_eqb k (key_of r)) eqn:Ek; [|reflexivity].
      apply key4_eqb_eq in Ek. subst k.
      unfold ledger_mem, dict_mem in E. unfold ledger_get in G.
      rewrite G in E. discriminate.
    + destruct (key4_eqb k (key_of r)) eqn:Ek.
      * apply key4_eqb_eq in Ek. subst k.
        unfold ledger_get, ledger_set.
        rewrite (dict_get_set_same key4_eqb key4_eqb_eq).
        apply dict_mem_get in E. unfold ledger_get. now rewrite E.
      * unfold ledger_get, ledger_set.
        rewrite (dict_get_set_other key4_eqb key4_eqb_eq).
        -- reflexivity.
        -- intros ->. now rewrite (dict_eqb_refl key4_eqb key4_eqb_eq) in Ek.
Qed.

(** The loop with the list of new rows computes the same dictionary. *)
Lemma fold_offer_fst (rows : list row) (uc : ledger) (news : list row) :
  fst (fold_left offer rows (uc, news))
  = fold_left ResponseToCsv.keep_first rows uc.
Proof.
  revert uc news. induction rows as [|r rows IH]; intros uc news; simpl.
  - reflexivity.
  - unfold ResponseToCsv.keep_first.
    destruct (ledger_mem uc (key_of r)); simpl; apply IH.
Qed.

Lemma offer_all_fst (uc : ledger) (rows : list row) :
  fst (offer_all uc rows) = fold_left ResponseToCsv.keep_first rows uc.
Proof. apply fold_offer_fst. Qed.

Lemma fold_offer_present (rows : list row) (uc : ledger) (news : list row) :
  (forall r, In r rows -> ledger_mem uc (key_of r) = true) ->
  fold_left offer rows (uc, news) = (uc, news).
Proof.
  induction rows as [|r rows IH]; intros H; simpl; [reflexivity|].
  rewrite (H r (or_introl eq_refl)). simpl. apply IH.
  intros r' Hr'. apply H. now right.
Qed.

Lemma fold_keep_first_mem (rows : list row) (uc : ledger) (r : row) :
  In r rows ->
  ledger_mem (fold_left ResponseToCsv.keep_first rows uc) (key_of r) = true.
Proof.
  intros Hr. unfold ledger_mem, dict_mem.
  fold (ledger_get (fold_left ResponseToCsv.keep_first rows uc) (key_of r)).
  rewrite fold_keep_first_get.
  destruct (ledger_get uc (key_of r)); [reflexivity|].
  destruct (find (fun r0 => key4_eqb (key_of r) (key_of r0)) rows) eqn:F;
    [reflexivity|].
  eapply find_none in F; [|exact Hr].
  now rewrite (dict_eqb_refl key4_eqb key4_eqb_eq) in F.
Qed.

Lemma fold_keep_first_app (l1 l2 : list row) (uc : ledger) :
  fold_left ResponseToCsv.keep_first (l1 ++ l2) uc
  = fold_left ResponseToCsv.keep_first l2
              (fold_left ResponseToCsv.keep_first l1 uc).
Proof. apply fold_left_app. Qed.

Lemma ledger_ok_values_keys (uc : ledger) :
  ledger_ok uc -> map key_of (dict_values uc) = dict_keys uc.
Proof.
  intros [_ H]. unfold dict_values, dict_keys.
  induction H as [|[k r] uc Hk _ IH]; simpl; [reflexivity|].
  simpl in Hk. now rewrite IH, Hk.
Qed.

(* ================================================================= *)
(** * Writing files *)

Lemma write_w_ok (p : path) (lines : csv_file) (handler : Exn world unit)
      (w : world) :
  can_open w p = true ->
  run_try (try_except (write_file ModeW p lines) handler) w
  = mkWorld (can_open w) (dict_set String.eqb (disk w) p lines)
            (trace w ++ [OpenOk p]).
Proof.
  intros H. unfold run_try, try_except, write_file. rewrite H. reflexivity.
Qed.

Lemma write_failed (mode : open_mode) (p : path) (lines : csv_file)
      (msg : string) (w : world) :
  can_open w p = false ->
  run_try (try_except (write_file mode p lines) (print_error msg)) w
  = mkWorld (can_open w) (disk w)
            (trace w ++ [OpenFailed p; ErrorPrinted msg]).
Proof.
  intros H. unfold run_try, try_except, write_file, print_error, modify, log.
  rewrite H. simpl. now rewrite <- app_assoc.
Qed.

Lemma read_after_write (w : world) (p : path) (lines : csv_file)
      (tr : list event) :
  read_file (mkWorld (can_open w) (dict_set String.eqb (disk w) p lines) tr) p
  = Some lines.
Proof.
  unfold read_file. simpl. apply (dict_get_set_same String.eqb String.eqb_eq).
Qed.

(* ================================================================= *)
(** * The watcher and the real-time handler on the ledger *)

Lemma watcher_append_fields (self : Watcher.t) (rows : list row) (w : world) :
  let self' := fst (Watcher._append_to_csv self rows w) in
  Watcher.unique_combinations self'
  = fold_left ResponseToCsv.keep_first rows (Watcher.unique_combinations self)
  /\ Watcher.output_csv self' = Watcher.output_csv self
  /\ Watcher.processed_files self' = Watcher.processed_files self.
Proof.
  unfold Watcher._append_to_csv.
  pose proof (offer_all_fst (Watcher.unique_combinations self) rows) as H.
  destruct (offer_all (Watcher.unique_combinations self) rows) as [uc news].
  simpl in H. destruct news; simpl; auto.
Qed.

Lemma watcher_append_all_fields (batches : list (list row))
      (self : Watcher.t) (w : world) :
  let self' := fst (Watcher.append_all self batches w) in
  Watcher.unique_combinations self'
  = fold_left ResponseToCsv.keep_first (List.concat batches)
              (Watcher.unique_combinations self)
  /\ Watcher.output_csv self' = Watcher.output_csv self.
Proof.
  unfold Watcher.append_all. revert self w.
  induction batches as [|b batches IH]; intros self w; simpl; [auto|].
  destruct (watcher_append_fields self b w) as [Huc [Hout _]].
  destruct (Watcher._append_to_csv self b w) as [self1 w1]. simpl in *.
  destruct (IH self1 w1) as [IH1 IH2].
  rewrite fold_keep_first_app, <- Huc, <- Hout. auto.
Qed.

(** Offering rows whose keys are all present changes nothing and writes
    nothing. *)
Lemma watcher_append_present (self : Watcher.t) (rows : list row) (w : world) :
  (forall r, In r rows ->
             ledger_mem (Watcher.unique_combinations self) (key_of r) = true) ->
  Watcher._append_to_csv self rows w = (self, w).
Proof.
  intros H. unfold Watcher._append_to_csv, offer_all.
  rewrite fold_offer_present by assumption. now destruct self.
Qed.

Lemma sorted_data_perm (uc : ledger) :
  Permutation (sorted_data uc) (dict_values uc).
Proof. apply sorted_perm. Qed.

Lemma sorted_data_nodup (uc : ledger) :
  ledger_ok uc -> NoDup (map key_of (sorted_data uc)).
Proof.
  intros H. eapply Permutation_NoDup.
  - apply Permutation_map, Permutation_sym, sorted_data_perm.
  - rewrite ledger_ok_values_keys by assumption. apply H.
Qed.

(** C1 (identity uniqueness, first wins).  Whatever batches of rows the
    watcher is given, the keys of its ledger are pairwise distinct; a key
    holds the first row that was offered with it; offering a row whose
    key is present changes neither the ledger nor the file, whatever its
    count; the rows of a sorted snapshot, and of the batch aggregation,
    have pairwise distinct identity keys. *)
Theorem ledger_identity_first_wins :
  forall (out : path) (batches : list (list row)) (w : world),
    let self := fst (Watcher.append_all (Watcher.fresh out) batches w) in
    let uc := Watcher.unique_combinations self in
    NoDup (dict_keys uc) /\
    (forall k, ledger_get uc k
               = find (fun r => key4_eqb k (key_of r)) (List.concat batches)) /\
    (forall r w', ledger_mem uc (key_of r) = true ->
                  Watcher._append_to_csv self [r] w' = (self, w')) /\
    NoDup (map key_of (sorted_data uc)) /\
    NoDup (map key_of (ResponseToCsv.aggregate_by_date (List.concat batches))).
Proof.
  intros out batches w self uc.
  destruct (watcher_append_all_fields batches (Watcher.fresh out) w)
    as [Huc _].
  fold self in Huc. fold uc in Huc. simpl in Huc.
  assert (Hok : ledger_ok uc)
    by (rewrite Huc; apply fold_keep_first_ok, ledger_ok_nil).
  repeat split.
  - apply Hok.
  - intros k. rewrite Huc, fold_keep_first_get. reflexivity.
  - intros r w' Hr. apply watcher_append_present.
    intros r' [<-|[]]. exact Hr.
  - now apply sorted_data_nodup.
  - unfold ResponseToCsv.aggregate_by_date.
    apply (sorted_data_nodup (uc := fold_left ResponseToCsv.keep_first
                                              (List.concat batches) [])).
    apply fold_keep_first_ok, ledger_ok_nil.
Qed.

Lemma realtime_update_fields (self : Realtime.t) (rows : list row)
      (w : world) :
  rows <> [] ->
  Realtime.unique_combinations
    (fst (Realtime.update_csv_realtime self (inr rows) w))
  = fold_left ResponseToCsv.keep_first rows (Realtime.unique_combinations self).
Proof.
  intros Hne. unfold Realtime.update_csv_realtime.
  destruct rows as [|r rows]; [congruence|].
  pose proof (offer_all_fst (Realtime.unique_combinations self) (r :: rows))
    as H.
  destruct (offer_all (Realtime.unique_combinations self) (r :: rows))
    as [uc news].
  simpl in H. destruct news; simpl; auto.
Qed.

(** C7 (idempotence).  Feeding the same payload a second time to the
    real-time handler leaves the ledger and its size as they were and
    writes nothing: the world, files and trace, is unchanged.  The same
    holds for a second [_append_to_csv] of the same rows in the watcher. *)
Theorem ingest_twice_idempotent :
  (forall (self : Realtime.t) (data : payload) (w : world),
      let st1 := Realtime.update_csv_realtime self (inl data) w in
      let st2 := Realtime.update_csv_realtime (fst st1) (inl data) (snd st1) in
      Realtime.unique_combinations (fst st2)
      = Realtime.unique_combinations (fst st1) /\
      Realtime.size (fst st2) = Realtime.size (fst st1) /\
      snd st2 = snd st1) /\
  (forall (self : Watcher.t) (rows : list row) (w : world),
      let st1 := Watcher._append_to_csv self rows w in
      Watcher._append_to_csv (fst st1) rows (snd st1) = st1).
Proof.
  split.
  - intros self data w.
    assert (H : forall s w0,
               (forall r, In r (Realtime.parse_network_response data) ->
                          ledger_mem (Realtime.unique_combinations s)
                                     (key_of r) = true) ->
               let st := Realtime.update_csv_realtime s (inl data) w0 in
               Realtime.unique_combinations (fst st)
               = Realtime.unique_combinations s /\ snd st = w0).
    { intros s w0 Hmem. unfold Realtime.update_csv_realtime.
      destruct (Realtime.parse_network_response data) as [|r rows] eqn:E;
        [simpl; auto|].
      unfold offer_all. rewrite fold_offer_present by assumption.
      simpl. auto. }
    intros st1 st2.
    assert (Hmem : forall r,
               In r (Realtime.parse_network_response data) ->
               ledger_mem (Realtime.unique_combinations (fst st1))
                          (key_of r) = true).
    { intros r Hr. unfold st1.
      change (Realtime.update_csv_realtime self (inl data) w)
        with (Realtime.update_csv_realtime
                self (inr (Realtime.parse_network_response data)) w).
      rewrite realtime_update_fields.
      - now apply fold_keep_first_mem.
      - intros E. rewrite E in Hr. contradiction. }
    destruct (H (fst st1) (snd st1) Hmem) as [H1 H2].
    fold st2 in H1, H2. unfold Realtime.size. now rewrite H1.
  - intros self rows w st1.
    destruct (watcher_append_fields self rows w) as [Huc _].
    fold st1 in Huc. rewrite watcher_append_present.
    + now destruct st1.
    + intros r Hr. rewrite Huc. now apply fold_keep_first_mem.
Qed.

(* ================================================================= *)
(** * The sorted snapshot *)

Lemma key3_eqb_eq (a b : key3) : key3_eqb a b = true <-> a = b.
Proof.
  destruct a as [[a1 a2] a3], b as [[b1 b2] b3]. simpl.
  rewrite !andb_true_iff, !String.eqb_eq. split.
  - intros [[-> ->] ->]. reflexivity.
  - intros H. inversion H. auto.
Qed.

Lemma sorted_data_sorted (uc : ledger) :
  StronglySorted (fun a b => key3_leb (sort_key a) (sort_key b) = true)
                 (sorted_data uc).
Proof.
  pose proof (sorted_sorted sort_key key3_ltb key3_ltb_asym key3_le_trans
                            (dict_values uc)) as H.
  unfold sorted_data. induction H as [|a l _ IH Ha]; constructor.
  - exact IH.
  - eapply Forall_impl; [|exact Ha].
    intros b Hb. unfold key_le in Hb. unfold key3_leb. now rewrite Hb.
Qed.

Lemma sorted_data_stable (uc : ledger) (k : key3) :
  filter (fun r => key3_eqb (sort_key r) k) (sorted_data uc)
  = filter (fun r => key3_eqb (sort_key r) k) (dict_values uc).
Proof.
  apply (sorted_stable sort_key key3_ltb key3_ltb_irrefl).
  intros x y Hx Hy. apply key3_eqb_eq in Hx, Hy. congruence.
Qed.

Lemma watcher_regenerate_file (self : Watcher.t) (w : world) :
  can_open w (Watcher.output_csv self) = true ->
  read_file (Watcher.regenerate_sorted_csv self w) (Watcher.output_csv self)
  = Some (fieldnames
            :: map csv_of_row (sorted_data (Watcher.unique_combinations self))).
Proof.
  intros H. unfold Watcher.regenerate_sorted_csv.
  rewrite write_w_ok by assumption. apply read_after_write.
Qed.

(** C6 (regenerate).  The sorted snapshot is a rearrangement of the
    stored records, ascending in the lexicographic order of
    (date, offeringId, invenOffrngLabel), in which the records with one
    and the same sort key keep their insertion order; when the output
    file can be opened, [regenerate_sorted_csv], of the watcher and of
    the real-time handler, leaves in it the header line followed by the
    lines of that snapshot and nothing else. *)
Theorem regenerate_writes_sorted_snapshot :
  (forall uc : ledger,
      Permutation (sorted_data uc) (dict_values uc) /\
      StronglySorted (fun a b => key3_leb (sort_key a) (sort_key b) = true)
                     (sorted_data uc) /\
      forall k : key3,
        filter (fun r => key3_eqb (sort_key r) k) (sorted_data uc)
        = filter (fun r => key3_eqb (sort_key r) k) (dict_values uc)) /\
  (forall (self : Watcher.t) (w : world),
      can_open w (Watcher.output_csv self) = true ->
      read_file (Watcher.regenerate_sorted_csv self w) (Watcher.output_csv self)
      = Some (fieldnames
                :: map csv_of_row
                       (sorted_data (Watcher.unique_combinations self)))) /\
  (forall (self : Realtime.t) (w : world),
      can_open w (Realtime.output_file self) = true ->
      read_file (Realtime.regenerate_sorted_csv self w)
                (Realtime.output_file self)
      = Some (fieldnames
                :: map csv_of_row
                       (sorted_data (Realtime.unique_combinations self)))).
Proof.
  split; [|split].
  - intros uc. split; [apply sorted_data_perm|].
    split; [apply sorted_data_sorted | apply sorted_data_stable].
  - apply watcher_regenerate_file.
  - intros self w H. unfold Realtime.regenerate_sorted_csv.
    rewrite write_w_ok by assumption. apply read_after_write.
Qed.

Lemma concat_singletons {A : Type} (l : list A) :
  List.concat (map (fun x => [x]) l) = l.
Proof. induction l as [|x l IH]; simpl; congruence. Qed.

Lemma watcher_snapshot_batches (out : path) (batches : list (list row))
      (w : world) :
  sorted_data
    (Watcher.unique_combinations
       (fst (Watcher.append_all (Watcher.fresh out) batches w)))
  = ResponseToCsv.aggregate_by_date (List.concat batches).
Proof.
  destruct (watcher_append_all_fields batches (Watcher.fresh out) w)
    as [Huc _].
  simpl in Huc. rewrite Huc. reflexivity.
Qed.

(** C10 (batch and incremental paths agree).  Inserting rows one at a
    time through the watcher, from an empty ledger, and taking the sorted
    snapshot gives the sequence [aggregate_by_date] computes from all the
    rows at once; so does any other split of the rows into batches; and
    when the output file can be opened, regenerate writes the header and
    the lines of [aggregate_by_date]. *)
Theorem batch_equals_incremental :
  forall (out : path) (rows : list row) (w : world),
    let self :=
      fst (Watcher.append_all (Watcher.fresh out)
                              (map (fun r => [r]) rows) w) in
    sorted_data (Watcher.unique_combinations self)
    = ResponseToCsv.aggregate_by_date rows /\
    (forall (batches : list (list row)) (w0 : world),
        List.concat batches = rows ->
        sorted_data
          (Watcher.unique_combinations
             (fst (Watcher.append_all (Watcher.fresh out) batches w0)))
        = ResponseToCsv.aggregate_by_date rows) /\
    (forall w' : world,
        can_open w' out = true ->
        read_file (Watcher.regenerate_sorted_csv self w') out
        = Some (fieldnames
                  :: map csv_of_row (ResponseToCsv.aggregate_by_date rows))).
Proof.
  intros out rows w self.
  assert (H1 : sorted_data (Watcher.unique_combinations self)
               = ResponseToCsv.aggregate_by_date rows).
  { unfold self. rewrite watcher_snapshot_batches.
    now rewrite concat_singletons. }
  split; [exact H1|]. split.
  - intros batches w0 <-. apply watcher_snapshot_batches.
  - intros w' Hw.
    destruct (watcher_append_all_fields (map (fun r => [r]) rows)
                                        (Watcher.fresh out) w) as [_ Hout].
    fold self in Hout. simpl in Hout.
    rewrite <- Hout in Hw |- *.
    rewrite watcher_regenerate_file by assumption. now rewrite H1.
Qed.

(* ================================================================= *)
(** * Arrival order *)

Lemma dict_get_In {K V : Type} (eqb : K -> K -> bool)
      (eqb_eq : forall a b, eqb a b = true <-> a = b)
      (d : dict K V) (k : K) (v : V) :
  dict_get eqb d k = Some v -> In (k, v) d.
Proof.
  induction d as [|[k' v'] d IH]; simpl; [discriminate|].
  destruct (eqb k k') eqn:E.
  - apply eqb_eq in E. subst k'. intros [= ->]. now left.
  - intros H. right. now apply IH.
Qed.

Lemma dict_In_get {K V : Type} (eqb : K -> K -> bool)
      (eqb_eq : forall a b, eqb a b = true <-> a = b)
      (d : dict K V) (k : K) (v : V) :
  NoDup (dict_keys d) -> In (k, v) d -> dict_get eqb d k = Some v.
Proof.
  induction d as [|[k' v'] d IH]; simpl; [tauto|].
  intros Hnd Hin. inversion Hnd as [|? ? Hk Hnd']; subst.
  destruct Hin as [[= -> ->]|Hin].
  - now rewrite (dict_eqb_refl eqb eqb_eq).
  - destruct (eqb k k') eqn:E.
    + apply eqb_eq in E. subst k'. exfalso. apply Hk.
      change k with (fst (k, v)). now apply in_map.
    + now apply IH.
Qed.

Lemma ledger_mem_fold (rows : list row) (k : key4) :
  ledger_mem (fold_left ResponseToCsv.keep_first rows []) k
  = existsb (fun r => key4_eqb k (key_of r)) rows.
Proof.
  unfold ledger_mem, dict_mem.
  fold (ledger_get (fold_left ResponseToCsv.keep_first rows []) k).
  rewrite fold_keep_first_get. simpl.
  induction rows as [|r rows IH]; simpl; [reflexivity|].
  destruct (key4_eqb k (key_of r)); [reflexivity | exact IH].
Qed.

Lemma existsb_perm {A : Type} (p : A -> bool) (l l' : list A) :
  Permutation l l' -> existsb p l = existsb p l'.
Proof.
  intros P. destruct (existsb p l) eqn:E; symmetry.
  - apply existsb_exists in E. destruct E as [x [Hx Hp]].
    apply existsb_exists. exists x. split; [|exact Hp].
    eapply Permutation_in; eassumption.
  - destruct (existsb p l') eqn:E'; [|reflexivity].
    apply existsb_exists in E'. destruct E' as [x [Hx Hp]].
    rewrite <- E. symmetry. apply existsb_exists. exists x.
    split; [|exact Hp].
    eapply Permutation_in; [apply Permutation_sym|]; eassumption.
Qed.

Lemma sumbool_of_bool_key4 (a b : key4) : {a = b} + {a <> b}.
Proof. repeat decide equality. Qed.

Lemma ledger_keys_mem (uc : ledger) (k : key4) :
  In k (dict_keys uc) <-> ledger_mem uc k = true.
Proof.
  destruct (ledger_mem uc k) eqn:E.
  - split; [reflexivity|]. intros _.
    destruct (in_dec (fun a b => sumbool_of_bool_key4 a b) k (dict_keys uc))
      as [H|H]; [exact H|].
    apply (dict_get_None key4_eqb key4_eqb_eq) in H.
    apply dict_mem_get in H. unfold ledger_mem in E. congruence.
  - split; [|discriminate]. intros H. exfalso.
    apply dict_mem_get in E.
    apply (dict_get_None key4_eqb key4_eqb_eq) in E. contradiction.
Qed.

(** A file not seen before adds the rows parsed from it. *)
Lemma process_file_fields (self : Watcher.t) (p : path)
      (c : option payload) (w : world) :
  existsb (String.eqb p) (Watcher.processed_files self) = false ->
  let self' := fst (Watcher._process_file self p c w) in
  Watcher.unique_combinations self'
  = fold_left ResponseToCsv.keep_first
              (ResponseToCsv.parse_network_response c)
              (Watcher.unique_combinations self)
  /\ forall q, q <> p ->
               existsb (String.eqb q) (Watcher.processed_files self')
               = existsb (String.eqb q) (Watcher.processed_files self).
Proof.
  intros Hp. unfold Watcher._process_file. rewrite Hp.
  destruct c as [data|]; simpl; [|auto].
  unfold Watcher._parse_response.
  destruct (Parser.extract data) as [|r rows] eqn:E.
  - simpl. split; [reflexivity|]. intros q Hq.
    rewrite existsb_app. simpl.
    apply String.eqb_neq in Hq. rewrite Hq. now rewrite !orb_false_r.
  - destruct (watcher_append_fields self (r :: rows) w) as [Huc [_ Hpf]].
    destruct (Watcher._append_to_csv self (r :: rows) w) as [self1 w1].
    simpl in *. split; [exact Huc|]. intros q Hq.
    rewrite existsb_app, Hpf. simpl.
    apply String.eqb_neq in Hq. rewrite Hq. now rewrite !orb_false_r.
Qed.

Lemma process_files_ledger (files : list (path * option payload))
      (self : Watcher.t) (w : world) :
  NoDup (map fst files) ->
  (forall p, In p (map fst files) ->
             existsb (String.eqb p) (Watcher.processed_files self) = false) ->
  Watcher.unique_combinations (fst (Watcher.process_files self files w))
  = fold_left ResponseToCsv.keep_first
              (flat_map (fun f => ResponseToCsv.parse_network_response (snd f))
                        files)
              (Watcher.unique_combinations self).
Proof.
  unfold Watcher.process_files. revert self w.
  induction files as [|[p c] files IH]; intros self w Hnd Hnew;
    [reflexivity|].
  simpl in Hnd. inversion Hnd as [|? ? Hp Hnd']; subst.
  destruct (process_file_fields self p c w) as [Huc Hpf].
  { apply Hnew. now left. }
  cbn [fold_left flat_map fst snd].
  destruct (Watcher._process_file self p c w) as [self1 w1]. simpl in *.
  rewrite fold_keep_first_app, <- Huc. apply IH; [exact Hnd'|].
  intros q Hq. rewrite Hpf.
  - apply Hnew. now right.
  - intros ->. contradiction.
Qed.

Lemma fold_keep_first_values_In (rows : list row) (r : row) :
  In r (dict_values (fold_left ResponseToCsv.keep_first rows [])) ->
  In r rows.
Proof.
  intros H. unfold dict_values in H. apply in_map_iff in H.
  destruct H as [[k r'] [Hr Hin]]. simpl in Hr. subst r'.
  pose proof (fold_keep_first_ok rows ledger_ok_nil) as [Hnd _].
  apply (dict_In_get key4_eqb key4_eqb_eq) in Hin; [|exact Hnd].
  fold (ledger_get (fold_left ResponseToCsv.keep_first rows []) k) in Hin.
  rewrite fold_keep_first_get in Hin.
  change (ledger_get [] k) with (@None row) in Hin. cbv beta iota in Hin.
  now apply find_some in Hin.
Qed.

Lemma fold_keep_first_In_values (rows : list row) (r : row) :
  (forall x y, In x rows -> In y rows -> sort_key x = sort_key y -> x = y) ->
  In r rows ->
  In r (dict_values (fold_left ResponseToCsv.keep_first rows [])).
Proof.
  intros Hinj Hr.
  pose proof (fold_keep_first_get rows [] (key_of r)) as G.
  change (ledger_get [] (key_of r)) with (@None row) in G. cbv beta iota in G.
  destruct (find (fun r0 => key4_eqb (key_of r) (key_of r0)) rows) as [r'|]
    eqn:F.
  - apply find_some in F. destruct F as [Hr' Hk].
    apply key4_eqb_eq in Hk.
    assert (r' = r).
    { apply Hinj; try assumption.
      unfold key_of in Hk. unfold sort_key. congruence. }
    subst r'. apply (dict_get_In key4_eqb key4_eqb_eq) in G.
    unfold dict_values. change r with (snd (key_of r, r)). now apply in_map.
  - eapply find_none in F; [|exact Hr].
    now rewrite (dict_eqb_refl key4_eqb key4_eqb_eq) in F.
Qed.

Lemma ledger_ok_values_nodup (uc : ledger) :
  ledger_ok uc -> NoDup (dict_values uc).
Proof.
  intros H. apply (NoDup_map_inv key_of).
  rewrite ledger_ok_values_keys by assumption. apply H.
Qed.

(** The snapshot of a permuted input. *)
Lemma snapshot_of_permutation (rows1 rows2 : list row) :
  Permutation rows1 rows2 ->
  let uc1 := fold_left ResponseToCsv.keep_first rows1 [] in
  let uc2 := fold_left ResponseToCsv.keep_first rows2 [] in
  (forall k, ledger_mem uc1 k = ledger_mem uc2 k) /\
  List.length (sorted_data uc1) = List.length (sorted_data uc2) /\
  ((forall x y, In x rows1 -> In y rows1 -> sort_key x = sort_key y -> x = y) ->
   sorted_data uc1 = sorted_data uc2).
Proof.
  intros P uc1 uc2.
  assert (Hmem : forall k, ledger_mem uc1 k = ledger_mem uc2 k).
  { intros k. unfold uc1, uc2. rewrite !ledger_mem_fold.
    now apply existsb_perm. }
  pose proof (fold_keep_first_ok rows1 ledger_ok_nil) as Hok1.
  pose proof (fold_keep_first_ok rows2 ledger_ok_nil) as Hok2.
  fold uc1 in Hok1. fold uc2 in Hok2.
  split; [exact Hmem|]. split.
  - rewrite (Permutation_length (sorted_data_perm uc1)),
      (Permutation_length (sorted_data_perm uc2)).
    unfold dict_values. rewrite !length_map.
    rewrite <- (length_map fst uc1), <- (length_map fst uc2).
    apply Permutation_length, NoDup_Permutation;
      [apply Hok1 | apply Hok2 |].
    intros k. fold (dict_keys uc1). fold (dict_keys uc2).
    rewrite !ledger_keys_mem, Hmem. reflexivity.
  - intros Hinj.
    assert (Hinj2 : forall x y, In x rows2 -> In y rows2 ->
                                sort_key x = sort_key y -> x = y).
    { intros x y Hx Hy. apply Hinj;
        (eapply Permutation_in; [apply Permutation_sym; exact P|assumption]). }
    assert (Pv : Permutation (dict_values uc1) (dict_values uc2)).
    { apply NoDup_Permutation; try now apply ledger_ok_values_nodup.
      intros r. split; intros Hr.
      - apply fold_keep_first_In_values; [exact Hinj2|].
        eapply Permutation_in; [exact P|].
        now apply fold_keep_first_values_In.
      - apply fold_keep_first_In_values; [exact Hinj|].
        eapply Permutation_in; [apply Permutation_sym; exact P|].
        now apply fold_keep_first_values_In. }
    apply (sorted_unique (key := sort_key) (ltb := key3_ltb)).
    + apply key3_le_antisym.
    + intros x y Hx Hy. apply Hinj; apply fold_keep_first_values_In;
        (eapply Permutation_in; [apply sorted_data_perm|assumption]).
    + apply sorted_sorted; [apply key3_ltb_asym | apply key3_le_trans].
    + apply sorted_sorted; [apply key3_ltb_asym | apply key3_le_trans].
    + rewrite (sorted_data_perm uc1), (sorted_data_perm uc2). exact Pv.
Qed.

(** C3, as the code has it.  Two watchers given the same files, each
    file once, in different orders end with the same identity keys in
    their ledgers and with sorted snapshots of the same length; the
    snapshots are the same sequence when no two rows parsed from the
    files agree on (date, offeringId, invenOffrngLabel) and differ
    elsewhere. *)
Theorem sorted_snapshot_arrival_order :
  forall (out1 out2 : path) (files1 files2 : list (path * option payload))
         (w1 w2 : world),
    Permutation files1 files2 ->
    NoDup (map fst files1) ->
    let uc1 := Watcher.unique_combinations
                 (fst (Watcher.process_files (Watcher.fresh out1) files1 w1)) in
    let uc2 := Watcher.unique_combinations
                 (fst (Watcher.process_files (Watcher.fresh out2) files2 w2)) in
    let rows :=
      flat_map (fun f => ResponseToCsv.parse_network_response (snd f)) files1 in
    (forall k, ledger_mem uc1 k = ledger_mem uc2 k) /\
    List.length (sorted_data uc1) = List.length (sorted_data uc2) /\
    ((forall x y, In x rows -> In y rows -> sort_key x = sort_key y -> x = y) ->
     sorted_data uc1 = sorted_data uc2).
Proof.
  intros out1 out2 files1 files2 w1 w2 P Hnd uc1 uc2 rows.
  assert (Hnd2 : NoDup (map fst files2))
    by (eapply Permutation_NoDup; [apply Permutation_map; exact P|exact Hnd]).
  unfold uc1, uc2.
  rewrite !process_files_ledger by (try assumption; reflexivity).
  apply snapshot_of_permutation. now apply Permutation_flat_map.
Qed.

(* ================================================================= *)
(** * Failing writes *)

Lemma open_attempts_app (tr1 tr2 : list event) :
  open_attempts (tr1 ++ tr2) = open_attempts tr1 ++ open_attempts tr2.
Proof.
  induction tr1 as [|[p|p|m] tr1 IH]; simpl; congruence.
Qed.

Lemma process_directory_failing (cwd directory_path output_file : string)
      (files : list (path * option payload)) (w : world) :
  files <> [] ->
  can_open w (ResponseToCsv.path_join directory_path output_file) = false ->
  let output_path := ResponseToCsv.path_join directory_path output_file in
  let alt_output_path := ResponseToCsv.path_join cwd output_file in
  let lines :=
    fieldnames
      :: map csv_of_row
           (ResponseToCsv.aggregate_by_date
              (flat_map (fun f => ResponseToCsv.parse_network_response (snd f))
                        (sorted fst String.ltb files))) in
  ResponseToCsv.process_directory cwd directory_path output_file files w
  = if can_open w alt_output_path
    then mkWorld (can_open w)
                 (dict_set String.eqb (disk w) alt_output_path lines)
                 (trace w ++ [OpenFailed output_path;
                              ErrorPrinted "Error writing CSV file";
                              OpenOk alt_output_path])
    else mkWorld (can_open w) (disk w)
                 (trace w ++ [OpenFailed output_path;
                              ErrorPrinted "Error writing CSV file";
                              OpenFailed alt_output_path;
                              ErrorPrinted
                                "Error writing to alternative location"]).
Proof.
  intros Hne Hfail output_path alt_output_path lines.
  unfold ResponseToCsv.process_directory.
  destruct files as [|f files]; [congruence|].
  fold output_path. fold alt_output_path. fold lines.
  unfold run_try, try_except, write_file at 1. fold output_path in Hfail.
  rewrite Hfail.
  unfold bind, print_error, modify, write_file, log. simpl.
  destruct (can_open w alt_output_path); simpl;
    repeat rewrite <- app_assoc; reflexivity.
Qed.

(** C8, as the code has it.  The batch path, when it cannot open its
    output file, tries exactly one more path, the same file name under
    the working directory: when that opens, the file is written there;
    when not, two errors are printed, no file changes and the function
    returns.  The watcher does not retry: when it cannot open its output
    file, an append makes at most one attempt, prints the error and
    changes no file, while the ledger has taken the new rows; then a
    regenerate on a path that opens writes the header and every record of
    the ledger. *)
Theorem write_failure_policy :
  (forall (cwd directory_path output_file : string)
          (files : list (path * option payload)) (w : world),
      files <> [] ->
      can_open w (ResponseToCsv.path_join directory_path output_file)
      = false ->
      let output_path := ResponseToCsv.path_join directory_path output_file in
      let alt_output_path := ResponseToCsv.path_join cwd output_file in
      let w' :=
        ResponseToCsv.process_directory cwd directory_path output_file
                                        files w in
      open_attempts (trace w')
      = open_attempts (trace w) ++ [output_path; alt_output_path] /\
      (can_open w alt_output_path = true ->
       read_file w' alt_output_path
       = Some (fieldnames
                 :: map csv_of_row
                      (ResponseToCsv.aggregate_by_date
                         (flat_map
                            (fun f =>
                               ResponseToCsv.parse_network_response (snd f))
                            (sorted fst String.ltb files))))) /\
      (can_open w alt_output_path = false ->
       disk w' = disk w /\
       trace w'
       = trace w ++ [OpenFailed output_path;
                     ErrorPrinted "Error writing CSV file";
                     OpenFailed alt_output_path;
                     ErrorPrinted "Error writing to alternative location"])) /\
  (forall (self : Watcher.t) (new_rows : list row) (w : world),
      can_open w (Watcher.output_csv self) = false ->
      let st := Watcher._append_to_csv self new_rows w in
      (trace (snd st) = trace w \/
       trace (snd st)
       = trace w ++ [OpenFailed (Watcher.output_csv self);
                     ErrorPrinted "Error writing to CSV"]) /\
      disk (snd st) = disk w /\
      Watcher.unique_combinations (fst st)
      = fold_left ResponseToCsv.keep_first new_rows
                  (Watcher.unique_combinations self) /\
      (forall r, In r new_rows ->
                 ledger_mem (Watcher.unique_combinations (fst st)) (key_of r)
                 = true) /\
      (forall w2 : world,
          can_open w2 (Watcher.output_csv self) = true ->
          read_file (Watcher.regenerate_sorted_csv (fst st) w2)
                    (Watcher.output_csv self)
          = Some (fieldnames
                    :: map csv_of_row
                         (sorted_data
                            (Watcher.unique_combinations (fst st)))))).
Proof.
  split.
  - intros cwd directory_path output_file files w Hne Hfail
           output_path alt_output_path w'.
    unfold w'. rewrite process_directory_failing by assumption.
    fold output_path. fold alt_output_path.
    destruct (can_open w alt_output_path) eqn:Halt; simpl.
    + split; [|split].
      * rewrite open_attempts_app. reflexivity.
      * intros _.
        apply (dict_get_set_same String.eqb String.eqb_eq).
      * discriminate.
    + split; [|split].
      * rewrite open_attempts_app. reflexivity.
      * discriminate.
      * auto.
  - intros self new_rows w Hfail st.
    destruct (watcher_append_fields self new_rows w) as [Huc [Hout _]].
    fold st in Huc, Hout.
    assert (Hw : snd st = w \/
                 snd st = mkWorld (can_open w) (disk w)
                            (trace w ++ [OpenFailed (Watcher.output_csv self);
                                         ErrorPrinted "Error writing to CSV"])).
    { unfold st, Watcher._append_to_csv.
      destruct (offer_all (Watcher.unique_combinations self) new_rows)
        as [uc news].
      destruct news; simpl; [now left|right].
      now apply write_failed. }
    split; [|split; [|split; [|split]]].
    + destruct Hw as [->| ->]; auto.
    + destruct Hw as [->| ->]; reflexivity.
    + exact Huc.
    + intros r Hr. rewrite Huc. now apply fold_keep_first_mem.
    + intros w2 Hw2. rewrite <- Hout in Hw2 |- *.
      now apply watcher_regenerate_file.
Qed.

(* ================================================================= *)
(** * The statistics reader *)

(** ** Text mode and [int()]

    The newline translation commutes with stripping white space, and a
    carriage return or a line feed inside the digits makes [int()] raise
    either way: reading in text mode does not change which count cells
    are integers, nor their values. *)

Lemma is_space_cr : is_space "013"%char = true.
Proof. reflexivity. Qed.

Lemma is_space_lf : is_space "010"%char = true.
Proof. reflexivity. Qed.

Lemma universal_newlines_forallb (b : bool) (l : list ascii) :
  forallb is_space (Monitor.universal_newlines_chars b l)
  = forallb is_space l.
Proof.
  revert b. induction l as [|c rest IH]; intros b; [reflexivity|].
  cbn [Monitor.universal_newlines_chars].
  destruct (Ascii.eqb_spec c "013"%char) as [->|Hcr].
  - cbn [forallb]. rewrite IH. reflexivity.
  - destruct (Ascii.eqb_spec c "010"%char) as [->|Hlf].
    + destruct b; cbn [forallb]; rewrite IH; reflexivity.
    + cbn [forallb]. now rewrite IH.
Qed.

(** After a character that is no line feed the pending carriage return
    is forgotten. *)
Lemma universal_newlines_pending (l : list ascii) :
  hd_error l <> Some "010"%char ->
  Monitor.universal_newlines_chars true l
  = Monitor.universal_newlines_chars false l.
Proof.
  destruct l as [|c rest]; [reflexivity|]. intros H.
  cbn [Monitor.universal_newlines_chars].
  destruct (Ascii.eqb_spec c "013"%char); [reflexivity|].
  destruct (Ascii.eqb_spec c "010"%char) as [->|]; [|reflexivity].
  now contradiction H.
Qed.

Lemma lstrip_head (l : list ascii) :
  hd_error (lstrip l) <> Some "010"%char.
Proof.
  induction l as [|c rest IH]; [discriminate|].
  cbn [lstrip]. destruct (is_space c) eqn:E; [exact IH|].
  cbn [hd_error]. intros H. injection H as ->. discriminate E.
Qed.

Lemma universal_newlines_lstrip (b : bool) (l : list ascii) :
  lstrip (Monitor.universal_newlines_chars b l)
  = Monitor.universal_newlines_chars false (lstrip l).
Proof.
  revert b. induction l as [|c rest IH]; intros b; [reflexivity|].
  cbn [Monitor.universal_newlines_chars].
  destruct (Ascii.eqb_spec c "013"%char) as [->|Hcr].
  - cbn [lstrip]. rewrite is_space_lf, is_space_cr. apply IH.
  - destruct (Ascii.eqb_spec c "010"%char) as [->|Hlf].
    + cbn [lstrip]. rewrite is_space_lf.
      destruct b; [apply IH|]. cbn [lstrip]. rewrite is_space_lf. apply IH.
    + cbn [lstrip]. destruct (is_space c) eqn:E; [apply IH|].
      cbn [Monitor.universal_newlines_chars].
      destruct (Ascii.eqb_spec c "013"%char); [contradiction|].
      destruct (Ascii.eqb_spec c "010"%char); [contradiction|].
      reflexivity.
Qed.

Lemma rstrip_spaces (l : list ascii) :
  forallb is_space l = true -> rstrip l = [].
Proof. destruct l as [|c rest]; [reflexivity|]. intros H. cbn [rstrip]. now rewrite H. Qed.

Lemma lstrip_app (a b : list ascii) :
  lstrip (a ++ b)
  = if forallb is_space a then lstrip b else lstrip a ++ b.
Proof.
  induction a as [|c a IH]; [reflexivity|].
  cbn [app lstrip forallb]. destruct (is_space c); [exact IH|reflexivity].
Qed.

Lemma forallb_rev {A : Type} (p : A -> bool) (l : list A) :
  forallb p (rev l) = forallb p l.
Proof.
  induction l as [|x l IH]; [reflexivity|].
  cbn [rev forallb]. rewrite forallb_app, IH. cbn [forallb].
  destruct (p x), (forallb p l); reflexivity.
Qed.

Lemma rev_lstrip_rev (l : list ascii) : rev (lstrip (rev l)) = rstrip l.
Proof.
  induction l as [|c rest IH]; [reflexivity|].
  cbn [rev]. rewrite lstrip_app, forallb_rev.
  cbn [rstrip forallb].
  destruct (forallb is_space rest) eqn:E.
  - cbn [lstrip]. destruct (is_space c); cbn [andb]; [reflexivity|].
    now rewrite (rstrip_spaces rest E).
  - rewrite Bool.andb_false_r, rev_app_distr, IH. reflexivity.
Qed.

Lemma universal_newlines_rstrip (b : bool) (l : list ascii) :
  rstrip (Monitor.universal_newlines_chars b l)
  = Monitor.universal_newlines_chars b (rstrip l).
Proof.
  revert b. induction l as [|c rest IH]; intros b; [reflexivity|].
  cbn [rstrip]. destruct (forallb is_space (c :: rest)) eqn:E.
  - apply rstrip_spaces. now rewrite universal_newlines_forallb.
  - cbn [Monitor.universal_newlines_chars].
    destruct (Ascii.eqb_spec c "013"%char) as [->|Hcr].
    + cbn [rstrip]. rewrite <- (universal_newlines_forallb true) in E.
      cbn [forallb] in E |- *.
      cbn [Monitor.universal_newlines_chars Ascii.eqb Bool.eqb] in E.
      cbn [forallb] in E. rewrite E. now rewrite IH.
    + destruct (Ascii.eqb_spec c "010"%char) as [->|Hlf].
      * destruct b.
        -- apply IH.
        -- cbn [rstrip]. rewrite <- (universal_newlines_forallb false) in E.
           cbn [Monitor.universal_newlines_chars Ascii.eqb Bool.eqb] in E.
           rewrite E. now rewrite IH.
      * cbn [rstrip]. rewrite <- (universal_newlines_forallb false) in E.
        cbn [Monitor.universal_newlines_chars] in E.
        destruct (Ascii.eqb_spec c "013"%char); [contradiction|].
        destruct (Ascii.eqb_spec c "010"%char); [contradiction|].
        rewrite E. now rewrite IH.
Qed.

Lemma universal_newlines_strip (l : list ascii) :
  strip (Monitor.universal_newlines_chars false l)
  = Monitor.universal_newlines_chars false (strip l).
Proof.
  unfold strip. rewrite !rev_lstrip_rev.
  now rewrite universal_newlines_lstrip, universal_newlines_rstrip.
Qed.

Lemma universal_newlines_digits (l : list ascii) (acc : Z) (prev : bool) :
  digits_value (Monitor.universal_newlines_chars false l) acc prev
  = digits_value l acc prev.
Proof.
  revert acc prev. induction l as [|c rest IH]; intros acc prev;
    [reflexivity|].
  cbn [Monitor.universal_newlines_chars].
  destruct (Ascii.eqb_spec c "013"%char) as [->|Hcr]; [reflexivity|].
  destruct (Ascii.eqb_spec c "010"%char) as [->|Hlf]; [reflexivity|].
  cbn [digits_value].
  destruct (Ascii.eqb c "_"%char).
  - destruct prev; [apply IH|reflexivity].
  - destruct (digit_of c); [apply IH|reflexivity].
Qed.

(** [int()] of a cell read in text mode is [int()] of the cell as
    written. *)
Lemma universal_newlines_count_digits (b : bool) (l : list ascii) :
  count_digits (Monitor.universal_newlines_chars b l) = count_digits l.
Proof.
  unfold count_digits. f_equal. revert b.
  induction l as [|c rest IH]; intros b; [reflexivity|].
  cbn [Monitor.universal_newlines_chars].
  destruct (Ascii.eqb_spec c "013"%char) as [->|Hcr].
  - cbn [filter is_digit digit_of]. apply IH.
  - destruct (Ascii.eqb_spec c "010"%char) as [->|Hlf].
    + destruct b; cbn [filter is_digit digit_of]; apply IH.
    + cbn [filter]. destruct (is_digit c); cbn [List.length]; now rewrite IH.
Qed.

Lemma int_of_str_universal_newlines (s : string) :
  int_of_str (Monitor.universal_newlines s) = int_of_str s.
Proof.
  unfold int_of_str, Monitor.universal_newlines. cbv zeta.
  rewrite list_ascii_of_string_of_list_ascii, universal_newlines_strip.
  rewrite universal_newlines_count_digits.
  destruct (count_digits (strip (list_ascii_of_string s))
            <=? int_max_str_digits)%N; [|reflexivity].
  unfold int_of_chars.
  destruct (strip (list_ascii_of_string s)) as [|c rest]; [reflexivity|].
  cbn [Monitor.universal_newlines_chars].
  destruct (Ascii.eqb_spec c "013"%char) as [->|Hcr]; [reflexivity|].
  destruct (Ascii.eqb_spec c "010"%char) as [->|Hlf]; [reflexivity|].
  rewrite universal_newlines_digits.
  destruct (Ascii.eqb c "-"%char); [reflexivity|].
  destruct (Ascii.eqb c "+"%char); [reflexivity|].
  change (c :: Monitor.universal_newlines_chars false rest)
    with ([c] ++ Monitor.universal_newlines_chars false rest).
  cbn [app digits_value].
  destruct (Ascii.eqb c "_"%char); [reflexivity|].
  destruct (digit_of c); [apply universal_newlines_digits|reflexivity].
Qed.




(* ================================================================= *)
(** * The claims at sample inputs *)

(** C2 fails as stated: with an entry whose count is not an integer
    before an entry with count 2, the specification's parser returns the
    second entry's row and the code returns nothing. *)
Lemma parse_failure_drops_siblings :
  Parser.extract (sample_payload "A1" "Ocean" [inv_bad; inv_two]) = [] /\
  extract_skipping (sample_payload "A1" "Ocean" [inv_bad; inv_two])
  = [row_two] /\
  Parser.extract (sample_payload "A1" "Ocean" [inv_bad; inv_two])
  <> extract_skipping (sample_payload "A1" "Ocean" [inv_bad; inv_two]).
Proof.
  split; [reflexivity|]. split; [reflexivity|].
  intros H. vm_compute in H. discriminate H.
Qed.

Lemma parse_stops_at_unparsable_count_witness :
  Parser.extract (sample_payload "A1" "Ocean" [inv_two; inv_bad; inv_queen])
  = [row_two] /\
  raised (Parser.body
            (sample_payload "A1" "Ocean" [inv_two; inv_bad; inv_queen])) []
  = true.
Proof.
  pose (o := sample_offering "A1" "Ocean" [inv_two; inv_bad; inv_queen]).
  pose (d := mkDay (Some (PyBool true)) (Some "2025-06-01")
                   (Some [inv_two; inv_bad; inv_queen])).
  apply (parse_stops_at_unparsable_count
           (sample_payload "A1" "Ocean" [inv_two; inv_bad; inv_queen])
           [mkEntry o d inv_two] [mkEntry o d inv_queen]
           (mkEntry o d inv_bad)).
  - reflexivity.
  - reflexivity.
  - reflexivity.
Defined.

Lemma filter_correctness_witness :
  Parser.visit_resort
    (mkResort (Some (PyBool false))
              (Some [sample_offering "A1" "Ocean" [inv_two]])) []
  = ([], Some tt) /\
  Parser.visit_day "Ocean" "A1"
    (mkDay (Some (PyInt 0)) (Some "2025-06-01") (Some [inv_two])) []
  = ([], Some tt) /\
  Parser.visit_inventory "Ocean" "A1" "2025-06-01" inv_zero []
  = ([], Some tt) /\
  exists n, py_int (availableCount row_two) = Some n /\ 0 < n.
Proof.
  destruct filter_correctness as [_ [_ [Hres [Hday [Hinv Hpos]]]]].
  split; [|split; [|split]].
  - apply Hres. reflexivity.
  - apply Hday. reflexivity.
  - apply Hinv. reflexivity.
  - apply (Hpos (sample_payload "A1" "Ocean" [inv_two; inv_zero])).
    simpl. left. reflexivity.
Defined.

Lemma presidential_reserve_normalization_witness :
  fst (Parser.visit_offering
         (sample_offering "WYN123" "Presidential Reserve Suite"
                          [inv_two; inv_zero])
         [])
  = [mkRow "2025-06-01" "WYN123 Presidential Reserve" "H1"
           "King Suite (Presidential Reserve)" (PyStr "2")].
Proof.
  destruct (presidential_reserve_normalization
              (sample_offering "WYN123" "Presidential Reserve Suite"
                               [inv_two; inv_zero])
              [])
    as [new_id [new_label [Hid [_ [_ [Hlabel [_ [_ Hrows]]]]]]]].
  rewrite Hrows. cbn [app]. vm_compute.
  rewrite (Hid eq_refl eq_refl), (Hlabel "King Suite" eq_refl eq_refl).
  reflexivity.
Defined.

Lemma ledger_identity_first_wins_witness :
  let self :=
    fst (Watcher.append_all (Watcher.fresh "out.csv") [[row_two]] open_world)
  in
  Watcher._append_to_csv self [row_five] closed_world = (self, closed_world).
Proof.
  intros self.
  destruct (ledger_identity_first_wins "out.csv" [[row_two]] open_world)
    as [_ [_ [Hdrop _]]].
  apply Hdrop. reflexivity.
Defined.

(** C3 fails as stated: two files carry the same slot with counts 2 and
    5; the sorted snapshot holds the count of whichever came first. *)
Lemma arrival_order_changes_snapshot :
  Permutation [file_a; file_b] [file_b; file_a] /\
  sorted_data
    (Watcher.unique_combinations
       (fst (Watcher.process_files (Watcher.fresh "out.csv")
                                   [file_a; file_b] open_world)))
  = [row_two] /\
  sorted_data
    (Watcher.unique_combinations
       (fst (Watcher.process_files (Watcher.fresh "out.csv")
                                   [file_b; file_a] open_world)))
  = [row_five] /\
  sorted_data
    (Watcher.unique_combinations
       (fst (Watcher.process_files (Watcher.fresh "out.csv")
                                   [file_a; file_b] open_world)))
  <> sorted_data
       (Watcher.unique_combinations
          (fst (Watcher.process_files (Watcher.fresh "out.csv")
                                      [file_b; file_a] open_world))).
Proof.
  split; [apply perm_swap|]. split; [reflexivity|]. split; [reflexivity|].
  intros H. vm_compute in H. discriminate H.
Qed.

Lemma sorted_snapshot_arrival_order_witness :
  sorted_data
    (Watcher.unique_combinations
       (fst (Watcher.process_files (Watcher.fresh "out.csv")
                                   [file_a; file_c] open_world)))
  = sorted_data
      (Watcher.unique_combinations
         (fst (Watcher.process_files (Watcher.fresh "other.csv")
                                     [file_c; file_a] closed_world))).
Proof.
  destruct (@sorted_snapshot_arrival_order
              "out.csv" "other.csv" [file_a; file_c] [file_c; file_a]
              open_world closed_world) as [_ [_ Hsame]].
  - apply perm_swap.
  - simpl. repeat constructor; simpl; intuition discriminate.
  - apply Hsame. simpl.
    intros x y [<-|[<-|[]]] [<-|[<-|[]]] H;
      try reflexivity; discriminate H.
Defined.

Lemma regenerate_writes_sorted_snapshot_witness :
  let self :=
    fst (Watcher.append_all (Watcher.fresh "out.csv")
                            [[row_queen; row_two]] closed_world) in
  read_file (Watcher.regenerate_sorted_csv self open_world) "out.csv"
  = Some [fieldnames;
          ["2025-06-01"; "A1"; "H1"; "King Suite"; "2"];
          ["2025-06-01"; "A1"; "H3"; "Queen Suite"; "3"]].
Proof.
  intros self.
  destruct regenerate_writes_sorted_snapshot as [_ [Hwatcher _]].
  apply (Hwatcher self open_world). reflexivity.
Defined.

Lemma batch_equals_incremental_witness :
  let self :=
    fst (Watcher.append_all (Watcher.fresh "out.csv")
                            [[row_queen]; [row_two]; [row_five]]
                            closed_world) in
  read_file (Watcher.regenerate_sorted_csv self open_world) "out.csv"
  = Some (fieldnames
            :: map csv_of_row
                 (ResponseToCsv.aggregate_by_date
                    [row_queen; row_two; row_five])).
Proof.
  intros self.
  destruct (batch_equals_incremental
              "out.csv" [row_queen; row_two; row_five] closed_world)
    as [_ [_ Hfile]].
  apply (Hfile open_world). reflexivity.
Defined.

(** C8 fails as stated: the watcher's append, when the output file cannot
    be opened, tries that one path and no other. *)
Lemma append_failure_is_not_retried :
  can_open closed_world "out.csv" = false /\
  trace (snd (Watcher._append_to_csv (Watcher.fresh "out.csv") [row_two]
                                     closed_world))
  = [OpenFailed "out.csv"; ErrorPrinted "Error writing to CSV"] /\
  open_attempts
    (trace (snd (Watcher._append_to_csv (Watcher.fresh "out.csv") [row_two]
                                        closed_world)))
  = ["out.csv"] /\
  ~ exists fallback,
      open_attempts
        (trace (snd (Watcher._append_to_csv (Watcher.fresh "out.csv")
                                            [row_two] closed_world)))
      = ["out.csv"; fallback].
Proof.
  split; [reflexivity|]. split; [reflexivity|]. split; [reflexivity|].
  intros [fallback H]. vm_compute in H. discriminate H.
Qed.

Lemma write_failure_policy_witness :
  open_attempts
    (trace (ResponseToCsv.process_directory
              "/home/user" "screens" "wyndham_availability.csv"
              [file_a] closed_world))
  = ["screens/wyndham_availability.csv";
     "/home/user/wyndham_availability.csv"] /\
  read_file
    (Watcher.regenerate_sorted_csv
       (fst (Watcher._append_to_csv (Watcher.fresh "out.csv") [row_two]
                                    closed_world))
       open_world)
    "out.csv"
  = Some [fieldnames; ["2025-06-01"; "A1"; "H1"; "King Suite"; "2"]].
Proof.
  destruct write_failure_policy as [Hbatch Hwatcher]. split.
  - destruct (Hbatch "/home/user" "screens" "wyndham_availability.csv"
                     [file_a] closed_world) as [Hattempts _].
    + discriminate.
    + reflexivity.
    + exact Hattempts.
  - destruct (Hwatcher (Watcher.fresh "out.csv") [row_two] closed_world)
      as [_ [_ [_ [_ Hregen]]]].
    + reflexivity.
    + apply (Hregen open_world). reflexivity.
Defined.

(** C9.  The reader tests ['Presidential' in offering_id] only inside
    [if room_label:], so a row whose label is empty is never counted,
    whatever its offering id.  The parser emits such a row for an entry
    without a label under an offering whose id contains
    ["Presidential"]; on the file holding this row the claim counts one
    presidential row and the reader counts none. *)
Lemma empty_label_row_is_not_counted :
  Parser.extract (sample_payload "A1 Presidential" "Ocean" [inv_nolabel])
  = [row_nolabel] /\
  Monitor.presidential_count
    (Monitor.read_csv_stats (Some (sink_file [row_nolabel]))) = 0 /\
  Z.of_nat (List.length (filter presidential [row_nolabel])) = 1 /\
  Monitor.presidential_count
    (Monitor.read_csv_stats (Some (sink_file [row_nolabel])))
  <> Z.of_nat (List.length (filter presidential [row_nolabel])).
Proof.
  split; [reflexivity|]. split; [reflexivity|]. split; [reflexivity|].
  intros H. vm_compute in H. discriminate H.
Qed.

(** The reader stops at a row whose count is not an integer: the rows
    after it are not counted. *)
Lemma reader_stops_at_bad_count :
  Monitor.presidential_count
    (Monitor.read_csv_stats
       (Some (sink_file
                [mkRow "2025-06-01" "A1" "H6" "King Suite" (PyBool true);
                 mkRow "2025-06-02" "A1" "H7" "Presidential Suite"
                       (PyStr "4")])))
  = 0.
Proof. reflexivity. Qed.

(* ================================================================= *)
(** * Further properties of the ledger and of the live file *)

Lemma fold_offer_spec (rows : list row) (uc : ledger) (acc : list row) :
  exists news,
    fold_left offer rows (uc, acc) = (uc ++ entries_of_rows news, acc ++ news)
    /\ incl news rows.
Proof.
  revert uc acc. induction rows as [|r rows IH]; intros uc acc.
  - exists []. simpl. rewrite !app_nil_r. split; [reflexivity|].
    intros x [].
  - cbn [fold_left]. unfold offer at 2.
    destruct (ledger_mem uc (key_of r)) eqn:E; cbn [negb].
    + destruct (IH uc acc) as [news [H Hi]]. exists news.
      split; [exact H|]. intros x Hx. right. now apply Hi.
    + unfold ledger_set. rewrite (dict_set_fresh key4_eqb uc (key_of r) r)
        by (now apply dict_mem_get).
      destruct (IH (uc ++ [(key_of r, r)]) (acc ++ [r])) as [news [H Hi]].
      exists (r :: news). split.
      * rewrite H. unfold entries_of_rows. simpl.
        now rewrite <- !app_assoc.
      * intros x [<-|Hx]; [now left | right; now apply Hi].
Qed.

Lemma write_a_ok (p : path) (lines : csv_file) (handler : Exn world unit)
      (w : world) :
  can_open w p = true ->
  run_try (try_except (write_file ModeA p lines) handler) w
  = mkWorld (can_open w)
            (dict_set String.eqb (disk w) p
                      (get_or (read_file w p) [] ++ lines))
            (trace w ++ [OpenOk p]).
Proof.
  intros H. unfold run_try, try_except, write_file. rewrite H. reflexivity.
Qed.

(** X1.  An append never touches what is stored: the ledger after
    [_append_to_csv] is the ledger before followed by the newly inserted
    rows, which are rows of the batch; without a new row nothing at all
    changes; with new rows and a file that opens, exactly their lines are
    added at the end of the file, in the same order. *)
Theorem append_only_ledger_and_file :
  forall (self : Watcher.t) (new_rows : list row) (w : world),
    let st := Watcher._append_to_csv self new_rows w in
    exists unique_new_rows,
      Watcher.unique_combinations (fst st)
      = Watcher.unique_combinations self ++ entries_of_rows unique_new_rows /\
      incl unique_new_rows new_rows /\
      Watcher.size (fst st)
      = (Watcher.size self + List.length unique_new_rows)%nat /\
      (unique_new_rows = [] -> st = (self, w)) /\
      (unique_new_rows <> [] ->
       can_open w (Watcher.output_csv self) = true ->
       read_file (snd st) (Watcher.output_csv self)
       = Some (get_or (read_file w (Watcher.output_csv self)) []
                 ++ map csv_of_row unique_new_rows)).
Proof.
  intros self new_rows w st. unfold st, Watcher._append_to_csv, offer_all.
  destruct (fold_offer_spec new_rows (Watcher.unique_combinations self) [])
    as [news [H Hi]].
  rewrite H. simpl app. exists news.
  destruct news as [|r news].
  - unfold entries_of_rows. simpl. rewrite !app_nil_r.
    repeat split; try assumption.
    + unfold Watcher.size. simpl. lia.
    + intros _. now destruct self.
    + congruence.
  - cbn [fst snd Watcher.unique_combinations]. repeat split; try assumption.
    + unfold Watcher.size, entries_of_rows.
      cbn [Watcher.unique_combinations].
      now rewrite length_app, length_map.
    + discriminate.
    + intros _ Hopen. rewrite write_a_ok by assumption.
      apply read_after_write.
Qed.

Lemma dict_values_app_entries (uc : ledger) (news : list row) :
  dict_values (uc ++ entries_of_rows news) = dict_values uc ++ news.
Proof.
  unfold dict_values, entries_of_rows. rewrite map_app, map_map. simpl.
  now rewrite map_id.
Qed.

(** What an append does to the object and to the world. *)
Lemma watcher_append_world (self : Watcher.t) (new_rows : list row)
      (w : world) :
  let st := Watcher._append_to_csv self new_rows w in
  exists news,
    Watcher.unique_combinations (fst st)
    = Watcher.unique_combinations self ++ entries_of_rows news /\
    Watcher.output_csv (fst st) = Watcher.output_csv self /\
    Watcher.processed_files (fst st) = Watcher.processed_files self /\
    can_open (snd st) = can_open w /\
    (can_open w (Watcher.output_csv self) = true ->
     read_file (snd st) (Watcher.output_csv self)
     = match news with
       | [] => read_file w (Watcher.output_csv self)
       | _ => Some (get_or (read_file w (Watcher.output_csv self)) []
                      ++ map csv_of_row news)
       end).
Proof.
  intros st. unfold st, Watcher._append_to_csv, offer_all.
  destruct (fold_offer_spec new_rows (Watcher.unique_combinations self) [])
    as [news [H _]].
  rewrite H. simpl app. exists news. destruct news as [|r news].
  - simpl. auto.
  - cbn [fst snd Watcher.unique_combinations Watcher.output_csv
             Watcher.processed_files].
    repeat split.
    + unfold run_try, try_except, write_file, print_error, modify, log.
      destruct (can_open w (Watcher.output_csv self)); reflexivity.
    + intros Hopen. rewrite write_a_ok by assumption.
      apply read_after_write.
Qed.

(** The invariant of a watcher writing to [out]. *)
Lemma watcher_append_live (out : path) (self : Watcher.t)
      (new_rows : list row) (w : world) :
  Watcher.output_csv self = out -> can_open w out = true ->
  live_file self w ->
  let st := Watcher._append_to_csv self new_rows w in
  Watcher.output_csv (fst st) = out /\ can_open (snd st) out = true /\
  live_file (fst st) (snd st) /\
  Watcher.processed_files (fst st) = Watcher.processed_files self.
Proof.
  intros Hout Hopen Hlive st.
  destruct (watcher_append_world self new_rows w)
    as [news [Huc [Ho [Hp [Hc Hr]]]]].
  fold st in Huc, Ho, Hp, Hc, Hr.
  split; [congruence|]. split; [now rewrite Hc|]. split; [|exact Hp].
  unfold live_file in *. rewrite Ho, Huc, dict_values_app_entries, map_app.
  rewrite Hr by congruence. destruct news as [|r news].
  - simpl. now rewrite app_nil_r.
  - rewrite Hlive. reflexivity.
Qed.

Lemma watcher_process_file_live (out : path) (self : Watcher.t) (p : path)
      (c : option payload) (w : world) :
  Watcher.output_csv self = out -> can_open w out = true ->
  live_file self w ->
  let st := Watcher._process_file self p c w in
  Watcher.output_csv (fst st) = out /\ can_open (snd st) out = true /\
  live_file (fst st) (snd st).
Proof.
  intros Hout Hopen Hlive. unfold Watcher._process_file.
  destruct (existsb (String.eqb p) (Watcher.processed_files self)); [auto|].
  destruct c as [data|]; [|simpl; auto].
  destruct (Watcher._parse_response data) as [|r rows].
  - simpl. auto.
  - destruct (watcher_append_live (r :: rows) Hout Hopen Hlive)
      as [Ho [Hc [Hl _]]].
    destruct (Watcher._append_to_csv self (r :: rows) w) as [self1 w1].
    simpl in *. auto.
Qed.

Lemma watcher_process_files_live (out : path)
      (files : list (path * option payload)) (self : Watcher.t) (w : world) :
  Watcher.output_csv self = out -> can_open w out = true ->
  live_file self w ->
  let st := Watcher.process_files self files w in
  Watcher.output_csv (fst st) = out /\ can_open (snd st) out = true /\
  live_file (fst st) (snd st).
Proof.
  unfold Watcher.process_files. revert self w.
  induction files as [|[p c] files IH]; intros self w Hout Hopen Hlive;
    [simpl; auto|].
  cbn [fold_left fst snd].
  destruct (watcher_process_file_live p c Hout Hopen Hlive) as [Ho [Hc Hl]].
  destruct (Watcher._process_file self p c w) as [self1 w1]. simpl in *.
  now apply IH.
Qed.

Lemma watcher_dispatch_live (out : path) (read : path -> option payload)
      (st : Watcher.t * world) (d : Watcher.delivery) :
  Watcher.output_csv (fst st) = out -> can_open (snd st) out = true ->
  live_file (fst st) (snd st) ->
  let st' := Watcher.dispatch read st d in
  Watcher.output_csv (fst st') = out /\ can_open (snd st') out = true /\
  live_file (fst st') (snd st').
Proof.
  intros Hout Hopen Hlive. destruct d as [ev|ev]; simpl.
  - unfold Watcher.on_created.
    destruct (Watcher.is_directory ev); [auto|].
    destruct (Watcher.is_response_path (Watcher.src_path ev)); [|auto].
    now apply watcher_process_file_live.
  - unfold Watcher.on_modified.
    destruct (Watcher.is_directory ev); [auto|].
    destruct (Watcher.is_response_path (Watcher.src_path ev)); [|auto].
    destruct (negb _); [|auto].
    now apply watcher_process_file_live.
Qed.

(** X2.  When the output file can be opened, the constructor yields a
    watcher, and after the files found at start and after any later
    sequence of created and modified events the output file is the header
    followed by one line per record of the ledger, in insertion order.
    When the output file cannot be opened, the constructor yields no
    watcher. *)
Theorem live_file_mirrors_ledger :
  forall (out : path) (existing_files : list (path * option payload))
         (read : path -> option payload)
         (deliveries : list Watcher.delivery) (w : world),
    (can_open w out = true ->
     exists self w1,
       Watcher.init out existing_files w = (Some self, w1) /\
       let st := fold_left (Watcher.dispatch read) deliveries (self, w1) in
       read_file (snd st) out
       = Some (fieldnames
                 :: map csv_of_row
                      (dict_values (Watcher.unique_combinations (fst st))))) /\
    (can_open w out = false ->
     fst (Watcher.init out existing_files w) = None).
Proof.
  intros out existing_files read deliveries w. split; intros Hopen.
  - unfold Watcher.init, Watcher._initialize_csv, write_file.
    cbn [Watcher.output_csv Watcher.fresh]. rewrite Hopen.
    set (w0 := mkWorld (can_open w)
                       (dict_set String.eqb (disk w) out ([] ++ [fieldnames]))
                       (trace w ++ [OpenOk out])).
    assert (H0 : Watcher.output_csv (Watcher.fresh out) = out
                 /\ can_open w0 out = true
                 /\ live_file (Watcher.fresh out) w0).
    { split; [reflexivity|]. split; [exact Hopen|].
      unfold live_file. apply read_after_write. }
    assert (H1 : let st := Watcher._process_existing_files
                             (Watcher.fresh out) existing_files w0 in
                 Watcher.output_csv (fst st) = out
                 /\ can_open (snd st) out = true
                 /\ live_file (fst st) (snd st)).
    { unfold Watcher._process_existing_files.
      destruct existing_files as [|f fs]; [exact H0|].
      destruct H0 as [Ha [Hb Hc]].
      now apply watcher_process_files_live. }
    destruct (Watcher._process_existing_files
                (Watcher.fresh out) existing_files w0) as [self w1].
    exists self, w1. split; [reflexivity|]. simpl in H1.
    assert (H2 : forall ds st,
               Watcher.output_csv (fst st) = out ->
               can_open (snd st) out = true ->
               live_file (fst st) (snd st) ->
               let st' := fold_left (Watcher.dispatch read) ds st in
               Watcher.output_csv (fst st') = out /\
               live_file (fst st') (snd st')).
    { induction ds as [|d ds IH]; intros st Ha Hb Hc; [simpl; auto|].
      cbn [fold_left].
      destruct (watcher_dispatch_live read st d Ha Hb Hc) as [Ha' [Hb' Hc']].
      now apply IH. }
    destruct H1 as [Ha [Hb Hc]].
    destruct (H2 deliveries (self, w1) Ha Hb Hc) as [Ho Hl].
    unfold live_file in Hl. now rewrite Ho in Hl.
  - unfold Watcher.init, Watcher._initialize_csv, write_file.
    cbn [Watcher.output_csv Watcher.fresh]. now rewrite Hopen.
Qed.

(* ================================================================= *)
(** * Files and events of the watcher *)

Lemma existsb_eqb_last (p : path) (l : list path) :
  existsb (String.eqb p) (l ++ [p]) = true.
Proof.
  rewrite existsb_app. simpl. rewrite String.eqb_refl.
  now rewrite orb_true_r.
Qed.

Lemma process_file_marks (self : Watcher.t) (p : path) (data : payload)
      (w : world) :
  existsb (String.eqb p)
          (Watcher.processed_files
             (fst (Watcher._process_file self p (Some data) w))) = true.
Proof.
  unfold Watcher._process_file.
  destruct (existsb (String.eqb p) (Watcher.processed_files self)) eqn:E;
    [exact E|].
  destruct (Watcher._parse_response data) as [|r rows].
  - simpl. apply existsb_eqb_last.
  - destruct (watcher_append_fields self (r :: rows) w) as [_ [_ Hp]].
    destruct (Watcher._append_to_csv self (r :: rows) w) as [self1 w1].
    simpl in *. apply existsb_eqb_last.
Qed.

(** A path once marked stays marked, whatever the watcher does. *)
Lemma process_file_keeps_marks (self : Watcher.t) (p q : path)
      (c : option payload) (w : world) :
  existsb (String.eqb q) (Watcher.processed_files self) = true ->
  existsb (String.eqb q)
          (Watcher.processed_files (fst (Watcher._process_file self p c w)))
  = true.
Proof.
  intros Hq. unfold Watcher._process_file.
  destruct (existsb (String.eqb p) (Watcher.processed_files self));
    [exact Hq|].
  destruct c as [data|]; [|exact Hq].
  destruct (Watcher._parse_response data) as [|r rows].
  - cbn [fst Watcher.processed_files]. rewrite existsb_app.
    apply orb_true_intro. left. exact Hq.
  - destruct (watcher_append_fields self (r :: rows) w) as [_ [_ Hp]].
    destruct (Watcher._append_to_csv self (r :: rows) w) as [self1 w1].
    cbn [fst Watcher.processed_files] in *.
    rewrite existsb_app, Hp. apply orb_true_intro. left. exact Hq.
Qed.

Lemma act_keeps_marks (read : path -> option payload)
      (st : Watcher.t * world) (a : Watcher.action) (q : path) :
  existsb (String.eqb q) (Watcher.processed_files (fst st)) = true ->
  existsb (String.eqb q)
          (Watcher.processed_files (fst (Watcher.act read st a))) = true.
Proof.
  intros Hq. destruct a as [[event|event]|]; cbn [Watcher.act Watcher.dispatch].
  - unfold Watcher.on_created.
    destruct (Watcher.is_directory event); [exact Hq|].
    destruct (Watcher.is_response_path (Watcher.src_path event)); [|exact Hq].
    now apply process_file_keeps_marks.
  - unfold Watcher.on_modified.
    destruct (Watcher.is_directory event); [exact Hq|].
    destruct (Watcher.is_response_path (Watcher.src_path event)); [|exact Hq].
    cbv zeta.
    destruct (negb (existsb (String.eqb (py_path (Watcher.src_path event)))
                            (Watcher.processed_files (fst st))));
      [|exact Hq].
    now apply process_file_keeps_marks.
  - exact Hq.
Qed.

Lemma acts_keep_marks (read : path -> option payload)
      (acts : list Watcher.action) (st : Watcher.t * world) (q : path) :
  existsb (String.eqb q) (Watcher.processed_files (fst st)) = true ->
  existsb (String.eqb q)
          (Watcher.processed_files
             (fst (fold_left (Watcher.act read) acts st))) = true.
Proof.
  revert st. induction acts as [|a acts IH]; intros st Hq; [exact Hq|].
  cbn [fold_left]. apply IH. now apply act_keeps_marks.
Qed.

(** X3.  A file that was read and decoded is never processed again.
    Once [_process_file] has read the file at the path [p], then after
    any further events and regenerations, whatever the files hold by
    then, [_process_file] on [p] changes neither the watcher nor the
    world, and neither does a created or modified event whose text
    names [p], in whatever spelling.  A file that could not be read or
    decoded is not marked: the watcher is unchanged, only the error is
    printed, and a later event that names the same path, when the file
    can be decoded, inserts its rows. *)
Theorem processed_file_is_skipped :
  (forall (self : Watcher.t) (p : path) (data : payload) (w : world)
          (read : path -> option payload) (acts : list Watcher.action),
      let st := fold_left (Watcher.act read) acts
                          (Watcher._process_file self p (Some data) w) in
      (forall (later : option payload) (w' : world),
          Watcher._process_file (fst st) p later w' = (fst st, w')) /\
      (forall (event : Watcher.fs_event) (read' : path -> option payload)
              (w' : world),
          py_path (Watcher.src_path event) = p ->
          Watcher.on_created (fst st) event read' w' = (fst st, w') /\
          Watcher.on_modified (fst st) event read' w' = (fst st, w'))) /\
  (forall (self : Watcher.t) (p : path) (w : world),
      existsb (String.eqb p) (Watcher.processed_files self) = false ->
      let st := Watcher._process_file self p None w in
      fst st = self /\
      disk (snd st) = disk w /\
      trace (snd st) = trace w ++ [ErrorPrinted "Error processing"] /\
      forall (event : Watcher.fs_event) (read : path -> option payload)
             (data : payload) (w' : world),
        Watcher.is_directory event = false ->
        Watcher.is_response_path (Watcher.src_path event) = true ->
        py_path (Watcher.src_path event) = p ->
        read p = Some data ->
        Watcher.unique_combinations
          (fst (Watcher.on_created (fst st) event read w'))
        = fold_left ResponseToCsv.keep_first (Parser.extract data)
                    (Watcher.unique_combinations self) /\
        Watcher.on_modified (fst st) event read w'
        = Watcher.on_created (fst st) event read w').
Proof.
  split.
  - intros self p data w read acts st.
    assert (H : existsb (String.eqb p) (Watcher.processed_files (fst st))
                = true).
    { unfold st. apply acts_keep_marks. apply process_file_marks. }
    assert (Hskip : forall later w',
               Watcher._process_file (fst st) p later w' = (fst st, w')).
    { intros later w'. unfold Watcher._process_file. now rewrite H. }
    split; [exact Hskip|].
    intros event read' w' Hp.
    unfold Watcher.on_created, Watcher.on_modified. cbv zeta.
    rewrite Hp, H, Hskip. cbn [negb].
    destruct (Watcher.is_directory event); [now split|].
    destruct (Watcher.is_response_path (Watcher.src_path event)); now split.
  - intros self p w Hnew st.
    assert (Hst : st = (self, log (ErrorPrinted "Error processing") w)).
    { unfold st, Watcher._process_file. now rewrite Hnew. }
    rewrite Hst. cbn [fst snd].
    split; [reflexivity|]. split; [reflexivity|]. split; [reflexivity|].
    intros event read data w' Hdir Hname Hp Hread.
    unfold Watcher.on_created, Watcher.on_modified. cbv zeta.
    rewrite Hdir, Hname, Hp, Hread, Hnew. cbn [negb]. split; [|reflexivity].
    destruct (process_file_fields self p (Some data) w' Hnew) as [Huc _].
    exact Huc.
Qed.

(** ** The pattern of the file names *)

Lemma substring_app_suffix (a b : string) :
  substring (String.length a) (String.length b) (a ++ b) = b.
Proof.
  induction a as [|c a IH]; simpl.
  - induction b as [|c b IH]; simpl; [reflexivity | now rewrite IH].
  - exact IH.
Qed.

Lemma string_length_app (a b : string) :
  String.length (a ++ b) = (String.length a + String.length b)%nat.
Proof. induction a as [|c a IH]; simpl; congruence. Qed.

Lemma substring_split (k : nat) (s : string) :
  (k <= String.length s)%nat ->
  s = (substring 0 k s ++ substring k (String.length s - k) s)%string.
Proof.
  revert k. induction s as [|c s IH]; intros k Hk; simpl in Hk.
  - assert (k = 0)%nat by lia. subst k. reflexivity.
  - destruct k as [|k].
    + simpl. f_equal.
      clear. induction s as [|c s IH]; simpl; [reflexivity | now rewrite <- IH].
    + simpl. f_equal. apply IH. lia.
Qed.

(** [str_endswith] is being a suffix. *)
Lemma str_endswith_spec (s suffix : string) :
  str_endswith s suffix = true <-> exists a, s = (a ++ suffix)%string.
Proof.
  unfold str_endswith. split.
  - destruct (Nat.leb_spec (String.length suffix) (String.length s))
      as [Hle|Hlt]; [|discriminate].
    intros H. apply String.eqb_eq in H.
    exists (substring 0 (String.length s - String.length suffix) s).
    pose proof (@substring_split
                  (String.length s - String.length suffix)%nat s) as Hs.
    replace (String.length s - (String.length s - String.length suffix))%nat
      with (String.length suffix) in Hs by lia.
    rewrite H in Hs. apply Hs. lia.
  - intros [a ->]. rewrite string_length_app.
    destruct (Nat.leb_spec (String.length suffix)
                           (String.length a + String.length suffix))
      as [_|Hlt]; [|lia].
    replace (String.length a + String.length suffix - String.length suffix)%nat
      with (String.length a) by lia.
    rewrite substring_app_suffix. apply String.eqb_refl.
Qed.

(** X4.  The two handlers do the same thing on every event: both ignore
    directories and every path that does not contain
    ["network-response"] or does not end in [".txt"], and on the other
    paths both are [_process_file] on the [Path] made of the event's
    text. *)
Theorem handlers_filter_and_agree :
  forall (self : Watcher.t) (event : Watcher.fs_event)
         (read : path -> option payload) (w : world),
    let p := Watcher.src_path event in
    Watcher.on_modified self event read w
    = Watcher.on_created self event read w /\
    (Watcher.is_directory event = true ->
     Watcher.on_created self event read w = (self, w)) /\
    ((~ exists a b, p = (a ++ "network-response" ++ b)%string) ->
     Watcher.on_created self event read w = (self, w)) /\
    ((~ exists a, p = (a ++ ".txt")%string) ->
     Watcher.on_created self event read w = (self, w)) /\
    (Watcher.is_directory event = false ->
     (exists a b, p = (a ++ "network-response" ++ b)%string) ->
     (exists a, p = (a ++ ".txt")%string) ->
     Watcher.on_created self event read w
     = Watcher._process_file self (py_path p) (read (py_path p)) w).
Proof.
  intros self event read w p. unfold Watcher.on_modified, Watcher.on_created.
  fold p. cbv zeta. split; [|split; [|split; [|split]]].
  - destruct (Watcher.is_directory event); [reflexivity|].
    destruct (Watcher.is_response_path p); [|reflexivity].
    destruct (existsb (String.eqb (py_path p))
                      (Watcher.processed_files self)) eqn:E;
      [|reflexivity].
    simpl. unfold Watcher._process_file. now rewrite E.
  - intros ->. reflexivity.
  - intros Hno. destruct (Watcher.is_directory event); [reflexivity|].
    unfold Watcher.is_response_path.
    destruct (str_in "network-response" p) eqn:E; [|reflexivity].
    apply str_in_spec in E. contradiction.
  - intros Hno. destruct (Watcher.is_directory event); [reflexivity|].
    unfold Watcher.is_response_path.
    destruct (str_endswith p ".txt") eqn:E;
      [|now rewrite andb_false_r].
    apply str_endswith_spec in E. contradiction.
  - intros -> Hin Hend. unfold Watcher.is_response_path.
    apply str_in_spec in Hin. apply str_endswith_spec in Hend.
    now rewrite Hin, Hend.
Qed.

(* ================================================================= *)
(** * The real-time handler keeps its two stores in step *)

Lemma realtime_update_step (self : Realtime.t)
      (new_data : payload + list row) (w : world) :
  let self' := fst (Realtime.update_csv_realtime self new_data w) in
  Realtime.all_data self'
  = Realtime.all_data self ++ Realtime.rows_of new_data /\
  Realtime.unique_combinations self'
  = fold_left ResponseToCsv.keep_first (Realtime.rows_of new_data)
              (Realtime.unique_combinations self).
Proof.
  unfold Realtime.update_csv_realtime.
  change (match new_data with
          | inl response_data => Realtime.parse_network_response response_data
          | inr rows => rows
          end) with (Realtime.rows_of new_data).
  destruct (Realtime.rows_of new_data) as [|r rows] eqn:E.
  - simpl. now rewrite app_nil_r.
  - pose proof (offer_all_fst (Realtime.unique_combinations self) (r :: rows))
      as H.
    destruct (offer_all (Realtime.unique_combinations self) (r :: rows))
      as [uc news].
    simpl in H. destruct news; simpl; auto.
Qed.

Lemma fold_keep_first_length (rows : list row) (uc : ledger) :
  (List.length (fold_left ResponseToCsv.keep_first rows uc)
   <= List.length uc + List.length rows)%nat.
Proof.
  revert uc. induction rows as [|r rows IH]; intros uc; simpl; [lia|].
  specialize (IH (ResponseToCsv.keep_first uc r)).
  destruct (ledger_mem uc (key_of r)) eqn:E.
  - rewrite keep_first_present in IH |- * by assumption. lia.
  - rewrite keep_first_absent in IH |- * by assumption.
    rewrite length_app in IH. simpl in IH. lia.
Qed.

(** X5.  In the real-time handler, whatever payloads and row lists it has
    been given, [all_data] is every row received, in order, and the
    ledger is the first-wins deduplication of [all_data]: the sorted
    snapshot is what the batch converter computes from [all_data], and
    the ledger is never larger than [all_data]. *)
Theorem realtime_ledger_tracks_all_data :
  forall (out : path) (inputs : list (payload + list row)) (w : world),
    let self := fst (Realtime.update_all (Realtime.fresh out) inputs w) in
    Realtime.all_data self = flat_map Realtime.rows_of inputs /\
    Realtime.unique_combinations self
    = fold_left ResponseToCsv.keep_first (Realtime.all_data self) [] /\
    sorted_data (Realtime.unique_combinations self)
    = ResponseToCsv.aggregate_by_date (Realtime.all_data self) /\
    (Realtime.size self <= List.length (Realtime.all_data self))%nat.
Proof.
  intros out inputs w self.
  assert (H : forall ins s w0,
             Realtime.unique_combinations s
             = fold_left ResponseToCsv.keep_first (Realtime.all_data s) [] ->
             let s' := fst (Realtime.update_all s ins w0) in
             Realtime.all_data s'
             = Realtime.all_data s ++ flat_map Realtime.rows_of ins /\
             Realtime.unique_combinations s'
             = fold_left ResponseToCsv.keep_first (Realtime.all_data s') []).
  { unfold Realtime.update_all.
    induction ins as [|nd ins IH]; intros s w0 Hs.
    - simpl. now rewrite app_nil_r.
    - cbn [fold_left flat_map fst snd].
      destruct (realtime_update_step s nd w0) as [Ha Hu].
      destruct (Realtime.update_csv_realtime s nd w0) as [s1 w1].
      simpl in Ha, Hu.
      destruct (IH s1 w1) as [IHa IHu].
      { rewrite Hu, Ha, fold_keep_first_app, Hs. reflexivity. }
      split; [|exact IHu]. rewrite IHa, Ha. now rewrite <- app_assoc. }
  destruct (H inputs (Realtime.fresh out) w eq_refl) as [Ha Hu].
  fold self in Ha, Hu. simpl in Ha.
  split; [exact Ha|]. split; [exact Hu|]. split.
  - rewrite Hu. reflexivity.
  - unfold Realtime.size. rewrite Hu.
    pose proof (fold_keep_first_length (Realtime.all_data self) []) as L.
    simpl in L. exact L.
Qed.

(* ================================================================= *)
(** * [aggregate_by_date] *)

Lemma ledger_mem_app_false (a b : ledger) (k : key4) :
  ledger_mem a k = false -> ledger_mem b k = false ->
  ledger_mem (a ++ b) k = false.
Proof.
  intros Ha Hb. destruct (ledger_mem (a ++ b) k) eqn:E; [|reflexivity].
  apply ledger_keys_mem in E. unfold dict_keys in E.
  rewrite map_app in E. apply in_app_or in E.
  destruct E as [E|E]; apply ledger_keys_mem in E; congruence.
Qed.

Lemma fold_keep_first_distinct (l : list row) (uc : ledger) :
  NoDup (map key_of l) ->
  (forall r, In r l -> ledger_mem uc (key_of r) = false) ->
  fold_left ResponseToCsv.keep_first l uc = uc ++ entries_of_rows l.
Proof.
  revert uc. induction l as [|r l IH]; intros uc Hnd Hnew.
  - simpl. now rewrite app_nil_r.
  - simpl in Hnd. inversion Hnd as [|? ? Hr Hnd']; subst.
    cbn [fold_left]. rewrite keep_first_absent by (apply Hnew; now left).
    rewrite IH; [unfold entries_of_rows; simpl; now rewrite <- app_assoc
                | exact Hnd' |].
    intros r' Hr'. apply ledger_mem_app_false; [apply Hnew; now right|].
    destruct (ledger_mem [(key_of r, r)] (key_of r')) eqn:E; [|reflexivity].
    apply ledger_keys_mem in E. simpl in E. destruct E as [E|[]].
    exfalso. apply Hr. rewrite E. now apply in_map.
Qed.

Lemma sorted_of_sorted {A K : Type} (key : A -> K) (ltb : K -> K -> bool)
      (l : list A) :
  StronglySorted (key_le key ltb) l -> sorted key ltb l = l.
Proof.
  induction 1 as [|x l Hl IH Hx]; [reflexivity|].
  simpl. rewrite IH. destruct l as [|y l]; [reflexivity|].
  simpl. inversion Hx as [|? ? Hxy _]; subst. unfold key_le in Hxy.
  now rewrite Hxy.
Qed.

Lemma aggregate_sorted (rows : list row) :
  StronglySorted (key_le sort_key key3_ltb)
                 (ResponseToCsv.aggregate_by_date rows).
Proof.
  apply sorted_sorted; [apply key3_ltb_asym | apply key3_le_trans].
Qed.

Lemma aggregate_nodup (rows : list row) :
  NoDup (map key_of (ResponseToCsv.aggregate_by_date rows)).
Proof.
  apply (sorted_data_nodup (uc := fold_left ResponseToCsv.keep_first rows [])).
  apply fold_keep_first_ok, ledger_ok_nil.
Qed.

(** X6.  [aggregate_by_date] is idempotent: aggregating its own output
    gives that output back. *)
Theorem aggregate_by_date_idempotent :
  forall all_data : list row,
    ResponseToCsv.aggregate_by_date (ResponseToCsv.aggregate_by_date all_data)
    = ResponseToCsv.aggregate_by_date all_data.
Proof.
  intros all_data.
  set (out := ResponseToCsv.aggregate_by_date all_data).
  unfold ResponseToCsv.aggregate_by_date at 1.
  rewrite fold_keep_first_distinct.
  - simpl app. unfold entries_of_rows, dict_values.
    rewrite map_map. simpl. rewrite map_id.
    apply sorted_of_sorted. apply aggregate_sorted.
  - apply aggregate_nodup.
  - reflexivity.
Qed.

(** X7.  [aggregate_by_date] invents nothing and loses no slot: every
    output row is an input row; every input row has in the output the
    first input row with its identity key; the output is no longer than
    the input. *)
Theorem aggregate_by_date_sound_complete :
  forall all_data : list row,
    let out := ResponseToCsv.aggregate_by_date all_data in
    (forall r, In r out -> In r all_data) /\
    (forall r, In r all_data ->
       exists r', find (fun x => key4_eqb (key_of r) (key_of x)) all_data
                  = Some r' /\
                  key_of r' = key_of r /\ In r' out) /\
    (List.length out <= List.length all_data)%nat.
Proof.
  intros all_data out.
  assert (P : Permutation out
                (dict_values
                   (fold_left ResponseToCsv.keep_first all_data [])))
    by apply sorted_data_perm.
  split; [|split].
  - intros r Hr. apply fold_keep_first_values_In.
    eapply Permutation_in; eassumption.
  - intros r Hr.
    pose proof (fold_keep_first_get all_data [] (key_of r)) as G.
    change (ledger_get [] (key_of r)) with (@None row) in G.
    cbv beta iota in G.
    destruct (find (fun x => key4_eqb (key_of r) (key_of x)) all_data)
      as [r'|] eqn:F.
    + exists r'. split; [reflexivity|].
      pose proof (find_some _ _ F) as [_ Hk]. apply key4_eqb_eq in Hk.
      split; [now symmetry|].
      apply (dict_get_In key4_eqb key4_eqb_eq) in G.
      eapply Permutation_in; [apply Permutation_sym; exact P|].
      unfold dict_values. change r' with (snd (key_of r, r')).
      now apply in_map.
    + eapply find_none in F; [|exact Hr].
      now rewrite (dict_eqb_refl key4_eqb key4_eqb_eq) in F.
  - rewrite (Permutation_length P). unfold dict_values. rewrite length_map.
    pose proof (fold_keep_first_length all_data []) as L. simpl in L.
    exact L.
Qed.

(* ================================================================= *)
(** * The batch run *)


Lemma str_ltb_asym (a b : string) :
  String.ltb a b = true -> String.ltb b a = false.
Proof.
  unfold String.ltb. rewrite (String.compare_antisym b a).
  destruct (String.compare a b); simpl; congruence.
Qed.

Lemma str_le_trans (a b c : string) :
  String.ltb b a = false -> String.ltb c b = false -> String.ltb c a = false.
Proof.
  unfold String.ltb. intros Hba Hcb.
  destruct (String.compare c a) eqn:Hca; try reflexivity.
  destruct (String.compare a b) eqn:Hab.
  - apply String.compare_eq_iff in Hab. subst b. now rewrite Hca in Hcb.
  - now rewrite (str_compare_lt_trans _ _ _ Hca Hab) in Hcb.
  - apply str_compare_gt_lt in Hab. now rewrite Hab in Hba.
Qed.

Lemma str_le_antisym (a b : string) :
  String.ltb a b = false -> String.ltb b a = false -> a = b.
Proof.
  unfold String.ltb. rewrite (String.compare_antisym b a).
  destruct (String.compare a b) eqn:E; simpl; try discriminate.
  intros _ _. now apply String.compare_eq_iff.
Qed.

Lemma NoDup_map_injective_on {A B : Type} (f : A -> B) (l : list A) :
  NoDup (map f l) ->
  forall x y, In x l -> In y l -> f x = f y -> x = y.
Proof.
  induction l as [|a l IH]; intros Hnd x y Hx Hy Hf; [contradiction|].
  simpl in Hnd. inversion Hnd as [|? ? Ha Hnd']; subst.
  destruct Hx as [<-|Hx], Hy as [<-|Hy].
  - reflexivity.
  - exfalso. apply Ha. rewrite Hf. now apply in_map.
  - exfalso. apply Ha. rewrite <- Hf. now apply in_map.
  - now apply IH.
Qed.

(** Sorting by name forgets the order of the listing. *)
Lemma sorted_by_path_perm {A : Type} (files1 files2 : list (path * A)) :
  Permutation files1 files2 -> NoDup (map fst files1) ->
  sorted fst String.ltb files1 = sorted fst String.ltb files2.
Proof.
  intros P Hnd.
  apply (sorted_unique (key := fst) (ltb := String.ltb)).
  - apply str_le_antisym.
  - intros x y Hx Hy. apply (NoDup_map_injective_on fst files1 Hnd);
      (eapply Permutation_in;
       [apply (sorted_perm fst String.ltb)|assumption]).
  - apply sorted_sorted; [apply str_ltb_asym | apply str_le_trans].
  - apply sorted_sorted; [apply str_ltb_asym | apply str_le_trans].
  - rewrite (sorted_perm fst String.ltb files1),
      (sorted_perm fst String.ltb files2). exact P.
Qed.

(** X8.  The batch run and the start of the watcher do not depend on the
    order in which the directory listing gives the files: for two
    listings of the same files, each path once, [process_directory]
    leaves the same world and [_process_existing_files] the same watcher
    and world. *)
Theorem listing_order_is_irrelevant :
  forall (files1 files2 : list (path * option payload)),
    Permutation files1 files2 ->
    NoDup (map fst files1) ->
    (forall (cwd directory_path output_file : string) (w : world),
        ResponseToCsv.process_directory cwd directory_path output_file
                                        files1 w
        = ResponseToCsv.process_directory cwd directory_path output_file
                                          files2 w) /\
    (forall (self : Watcher.t) (w : world),
        Watcher._process_existing_files self files1 w
        = Watcher._process_existing_files self files2 w).
Proof.
  intros files1 files2 P Hnd.
  pose proof (sorted_by_path_perm P Hnd) as Hs.
  split.
  - intros cwd directory_path output_file w.
    unfold ResponseToCsv.process_directory.
    destruct files1 as [|f1 fs1].
    + apply Permutation_nil in P. now subst.
    + destruct files2 as [|f2 fs2].
      * apply Permutation_sym, Permutation_nil in P. discriminate.
      * now rewrite Hs.
  - intros self w. unfold Watcher._process_existing_files.
    destruct files1 as [|f1 fs1].
    + apply Permutation_nil in P. now subst.
    + destruct files2 as [|f2 fs2].
      * apply Permutation_sym, Permutation_nil in P. discriminate.
      * now rewrite Hs.
Qed.

(* ================================================================= *)
(** * The statistics of a sink file *)


























(* ================================================================= *)
(** * [str] then [int] *)

Lemma digits_value_digit (c : ascii) (k : Z) (rest : list ascii) (acc : Z)
      (b : bool) :
  Ascii.eqb c "_"%char = false -> digit_of c = Some k ->
  digits_value (c :: rest) acc b = digits_value rest (10 * acc + k) true.
Proof. intros H1 H2. simpl. now rewrite H1, H2. Qed.

Lemma digits_value_acc (d : Decimal.uint) (p : BinNums.positive) :
  digits_value (list_ascii_of_string (NilEmpty.string_of_uint d))
               (Z.pos p) true
  = Some (Z.pos (Pos.of_uint_acc d p)).
Proof.
  revert p.
  induction d as [|d IH|d IH|d IH|d IH|d IH|d IH|d IH|d IH|d IH|d IH];
    intros p; cbn [NilEmpty.string_of_uint list_ascii_of_string Pos.of_uint_acc];
    [reflexivity|..].
  - rewrite (@digits_value_digit _ 0) by reflexivity.
    replace (10 * Z.pos p + 0) with (Z.pos (10 * p)) by lia. apply IH.
  - rewrite (@digits_value_digit _ 1) by reflexivity.
    replace (10 * Z.pos p + 1) with (Z.pos (1 + 10 * p)) by lia. apply IH.
  - rewrite (@digits_value_digit _ 2) by reflexivity.
    replace (10 * Z.pos p + 2) with (Z.pos (2 + 10 * p)) by lia. apply IH.
  - rewrite (@digits_value_digit _ 3) by reflexivity.
    replace (10 * Z.pos p + 3) with (Z.pos (3 + 10 * p)) by lia. apply IH.
  - rewrite (@digits_value_digit _ 4) by reflexivity.
    replace (10 * Z.pos p + 4) with (Z.pos (4 + 10 * p)) by lia. apply IH.
  - rewrite (@digits_value_digit _ 5) by reflexivity.
    replace (10 * Z.pos p + 5) with (Z.pos (5 + 10 * p)) by lia. apply IH.
  - rewrite (@digits_value_digit _ 6) by reflexivity.
    replace (10 * Z.pos p + 6) with (Z.pos (6 + 10 * p)) by lia. apply IH.
  - rewrite (@digits_value_digit _ 7) by reflexivity.
    replace (10 * Z.pos p + 7) with (Z.pos (7 + 10 * p)) by lia. apply IH.
  - rewrite (@digits_value_digit _ 8) by reflexivity.
    replace (10 * Z.pos p + 8) with (Z.pos (8 + 10 * p)) by lia. apply IH.
  - rewrite (@digits_value_digit _ 9) by reflexivity.
    replace (10 * Z.pos p + 9) with (Z.pos (9 + 10 * p)) by lia. apply IH.
Qed.

Lemma digits_value_uint (d : Decimal.uint) (b : bool) :
  d <> Decimal.Nil \/ b = true ->
  digits_value (list_ascii_of_string (NilEmpty.string_of_uint d)) 0 b
  = Some (Z.of_N (Pos.of_uint d)).
Proof.
  revert b.
  induction d as [|d IH|d IH|d IH|d IH|d IH|d IH|d IH|d IH|d IH|d IH];
    intros b Hb;
    cbn [NilEmpty.string_of_uint list_ascii_of_string Pos.of_uint].
  - destruct Hb as [Hb| ->]; [congruence | reflexivity].
  - rewrite (@digits_value_digit _ 0) by reflexivity.
    apply IH. now right.
  - rewrite (@digits_value_digit _ 1) by reflexivity.
    apply (digits_value_acc d 1).
  - rewrite (@digits_value_digit _ 2) by reflexivity.
    apply (digits_value_acc d 2).
  - rewrite (@digits_value_digit _ 3) by reflexivity.
    apply (digits_value_acc d 3).
  - rewrite (@digits_value_digit _ 4) by reflexivity.
    apply (digits_value_acc d 4).
  - rewrite (@digits_value_digit _ 5) by reflexivity.
    apply (digits_value_acc d 5).
  - rewrite (@digits_value_digit _ 6) by reflexivity.
    apply (digits_value_acc d 6).
  - rewrite (@digits_value_digit _ 7) by reflexivity.
    apply (digits_value_acc d 7).
  - rewrite (@digits_value_digit _ 8) by reflexivity.
    apply (digits_value_acc d 8).
  - rewrite (@digits_value_digit _ 9) by reflexivity.
    apply (digits_value_acc d 9).
Qed.

Lemma lstrip_no_space (l : list ascii) :
  Forall (fun c => is_space c = false) l -> lstrip l = l.
Proof.
  intros H. destruct H as [|c l Hc _]; [reflexivity|]. simpl. now rewrite Hc.
Qed.

Lemma strip_no_space (l : list ascii) :
  Forall (fun c => is_space c = false) l -> strip l = l.
Proof.
  intros H. unfold strip. rewrite (lstrip_no_space H).
  rewrite lstrip_no_space; [apply rev_involutive|].
  apply Forall_forall. intros c Hc. rewrite Forall_forall in H.
  apply H. now apply in_rev.
Qed.

Lemma uint_chars_no_space (d : Decimal.uint) :
  Forall (fun c => is_space c = false)
         (list_ascii_of_string (NilEmpty.string_of_uint d)).
Proof.
  induction d; cbn [NilEmpty.string_of_uint list_ascii_of_string];
    constructor; (reflexivity || assumption).
Qed.

Lemma filter_digit_cons (c : ascii) (l : list ascii) :
  is_digit c = true -> filter is_digit (c :: l) = c :: filter is_digit l.
Proof. intros H. cbn [filter]. now rewrite H. Qed.

Lemma uint_chars_digits (d : Decimal.uint) :
  count_digits (list_ascii_of_string (NilEmpty.string_of_uint d))
  = N.of_nat (Decimal.nb_digits d).
Proof.
  unfold count_digits. f_equal.
  induction d;
    cbn [NilEmpty.string_of_uint list_ascii_of_string Decimal.nb_digits];
    [reflexivity|..];
    rewrite filter_digit_cons by reflexivity; cbn [List.length];
    now rewrite IHd.
Qed.

(** The value of a numeral is at least the power of ten of its length. *)
Lemma of_uint_acc_lower (d : Decimal.uint) (p : BinNums.positive) :
  Z.pos p * 10 ^ Z.of_nat (Decimal.nb_digits d)
  <= Z.pos (Pos.of_uint_acc d p).
Proof.
  revert p.
  induction d as [|d IH|d IH|d IH|d IH|d IH|d IH|d IH|d IH|d IH|d IH];
    intros p; cbn [Pos.of_uint_acc Decimal.nb_digits];
    [rewrite Z.pow_0_r; lia|..];
    rewrite Nat2Z.inj_succ, Z.pow_succ_r by lia;
    (assert (HX : 0 < 10 ^ Z.of_nat (Decimal.nb_digits d))
      by (apply Z.pow_pos_nonneg; lia));
    [specialize (IH (10 * p)%positive)
    |specialize (IH (1 + 10 * p)%positive)
    |specialize (IH (2 + 10 * p)%positive)
    |specialize (IH (3 + 10 * p)%positive)
    |specialize (IH (4 + 10 * p)%positive)
    |specialize (IH (5 + 10 * p)%positive)
    |specialize (IH (6 + 10 * p)%positive)
    |specialize (IH (7 + 10 * p)%positive)
    |specialize (IH (8 + 10 * p)%positive)
    |specialize (IH (9 + 10 * p)%positive)];
    nia.
Qed.

(** The decimal numeral of a positive number does not start with 0. *)
Lemma to_uint_head (p : BinNums.positive) (d : Decimal.uint) :
  Pos.to_uint p <> Decimal.D0 d.
Proof.
  intros H.
  pose proof (Unsigned.to_of (Pos.to_uint p)) as Hn.
  rewrite Unsigned.of_to in Hn. cbn [N.to_uint] in Hn.
  rewrite H in Hn. rewrite DecimalFacts.unorm_D0 in Hn.
  unfold Decimal.unorm in Hn.
  destruct (Decimal.nzhead d) eqn:E;
    try (apply (@DecimalFacts.nzhead_nonzero d d); congruence).
  apply (Unsigned.to_uint_nonzero p). rewrite H. congruence.
Qed.

Lemma to_uint_lower (p : BinNums.positive) :
  10 ^ (Z.of_nat (Decimal.nb_digits (Pos.to_uint p)) - 1) <= Z.pos p.
Proof.
  pose proof (Unsigned.of_to p) as Hp.
  pose proof (@to_uint_head p) as Hh.
  pose proof (Unsigned.to_uint_nonnil p) as Hn.
  destruct (Pos.to_uint p) as [|d|d|d|d|d|d|d|d|d|d];
    [congruence | exfalso; now apply (Hh d) | ..];
    cbn [Pos.of_uint Decimal.nb_digits] in Hp |- *;
    injection Hp as <-;
    rewrite Nat2Z.inj_succ;
    replace (Z.succ (Z.of_nat (Decimal.nb_digits d)) - 1)
      with (Z.of_nat (Decimal.nb_digits d)) by lia;
    (assert (HX : 0 < 10 ^ Z.of_nat (Decimal.nb_digits d))
      by (apply Z.pow_pos_nonneg; lia));
    [pose proof (of_uint_acc_lower d 1) as HL
    |pose proof (of_uint_acc_lower d 2) as HL
    |pose proof (of_uint_acc_lower d 3) as HL
    |pose proof (of_uint_acc_lower d 4) as HL
    |pose proof (of_uint_acc_lower d 5) as HL
    |pose proof (of_uint_acc_lower d 6) as HL
    |pose proof (of_uint_acc_lower d 7) as HL
    |pose proof (of_uint_acc_lower d 8) as HL
    |pose proof (of_uint_acc_lower d 9) as HL];
    nia.
Qed.

(** A positive number below the limit has no more digits than [int]
    converts. *)
Lemma to_uint_within_limit (p : BinNums.positive) :
  Z.pos p < 10 ^ Z.of_N int_max_str_digits ->
  (N.of_nat (Decimal.nb_digits (Pos.to_uint p)) <=? int_max_str_digits)%N
  = true.
Proof.
  intros Hp. apply N.leb_le.
  destruct (N.le_gt_cases (N.of_nat (Decimal.nb_digits (Pos.to_uint p)))
                          int_max_str_digits) as [H|H]; [exact H|].
  exfalso. pose proof (to_uint_lower p) as HL.
  assert (HM : 10 ^ Z.of_N int_max_str_digits
               <= 10 ^ (Z.of_nat (Decimal.nb_digits (Pos.to_uint p)) - 1)).
  { apply Z.pow_le_mono_r; lia. }
  apply (Z.lt_irrefl (Z.pos p)).
  eapply Z.lt_le_trans; [exact Hp|].
  eapply Z.le_trans; [exact HM | exact HL].
Qed.

Lemma int_of_str_uint (p : BinNums.positive) :
  Z.pos p < 10 ^ Z.of_N int_max_str_digits ->
  int_of_str (NilEmpty.string_of_uint (Pos.to_uint p)) = Some (Z.pos p).
Proof.
  intros Hp. unfold int_of_str. cbv zeta.
  rewrite (strip_no_space (uint_chars_no_space (Pos.to_uint p))).
  rewrite uint_chars_digits, (@to_uint_within_limit p Hp).
  pose proof (@digits_value_uint (Pos.to_uint p) false
                (or_introl (Unsigned.to_uint_nonnil p))) as H.
  rewrite Unsigned.of_to in H. simpl Z.of_N in H.
  unfold int_of_chars.
  destruct (Pos.to_uint p);
    cbn [NilEmpty.string_of_uint list_ascii_of_string] in H |- *;
    [discriminate H | exact H ..].
Qed.

Lemma nilzero_uint (p : BinNums.positive) :
  NilZero.string_of_uint (Pos.to_uint p)
  = NilEmpty.string_of_uint (Pos.to_uint p).
Proof.
  unfold NilZero.string_of_uint.
  pose proof (Unsigned.to_uint_nonnil p) as H.
  destruct (Pos.to_uint p); [congruence | reflexivity ..].
Qed.

(** [int(str(z)) = z] for an integer of a payload. *)
Lemma int_of_str_py_str_int (z : Z) :
  Z.abs z < 10 ^ Z.of_N int_max_str_digits ->
  int_of_str (py_str (PyInt z)) = Some z.
Proof.
  intros Hz.
  destruct z as [|p|p]; cbn [py_str Z.to_int NilZero.string_of_int].
  - reflexivity.
  - rewrite nilzero_uint. now apply int_of_str_uint.
  - rewrite nilzero_uint. unfold int_of_str. cbv zeta.
    cbn [list_ascii_of_string].
    rewrite strip_no_space
      by (constructor; [reflexivity | apply uint_chars_no_space]).
    replace (count_digits
               ("-"%char
                  :: list_ascii_of_string
                       (NilEmpty.string_of_uint (Pos.to_uint p))))
      with (count_digits
              (list_ascii_of_string
                 (NilEmpty.string_of_uint (Pos.to_uint p))))
      by reflexivity.
    rewrite uint_chars_digits, (@to_uint_within_limit p Hz).
    cbn [int_of_chars Ascii.eqb Bool.eqb].
    pose proof (@digits_value_uint (Pos.to_uint p) false
                  (or_introl (Unsigned.to_uint_nonnil p))) as H.
    rewrite Unsigned.of_to in H. rewrite H. reflexivity.
Qed.

(** ** What [int()] refuses *)

Lemma digits_value_chars (l : list ascii) (acc : Z) (b : bool) (v : Z) :
  digits_value l acc b = Some v ->
  Forall (fun c => c = "_"%char \/ is_digit c = true) l.
Proof.
  revert acc b. induction l as [|c rest IH]; intros acc b H; [constructor|].
  cbn [digits_value] in H.
  destruct (Ascii.eqb_spec c "_"%char) as [->|Hc].
  - destruct b; [|discriminate H].
    constructor; [now left | exact (IH _ _ H)].
  - unfold is_digit. destruct (digit_of c) as [k|] eqn:E; [|discriminate H].
    constructor; [right; now rewrite E | exact (IH _ _ H)].
Qed.

Lemma In_lstrip (c : ascii) (l : list ascii) :
  In c l -> is_space c = true \/ In c (lstrip l).
Proof.
  induction l as [|x rest IH]; [intros []|].
  intros H. cbn [lstrip]. destruct (is_space x) eqn:E; [|now right].
  destruct H as [<-|H]; [now left | now apply IH].
Qed.

Lemma In_rstrip (c : ascii) (l : list ascii) :
  In c l -> is_space c = true \/ In c (rstrip l).
Proof.
  induction l as [|x rest IH]; [intros []|].
  intros H. cbn [rstrip]. destruct (forallb is_space (x :: rest)) eqn:E.
  - left. rewrite forallb_forall in E. now apply E.
  - destruct H as [<-|H]; [right; now left|].
    destruct (IH H) as [Hs|Hin]; [now left | right; now right].
Qed.

Lemma In_strip (c : ascii) (l : list ascii) :
  In c l -> is_space c = true \/ In c (strip l).
Proof.
  intros H. unfold strip. rewrite rev_lstrip_rev.
  destruct (In_lstrip c l H) as [Hs|Hin]; [now left|].
  now apply In_rstrip.
Qed.

(** A text [int()] accepts holds white space, digits, underscores and
    signs only. *)
Lemma int_of_str_chars (s : string) (z : Z) (c : ascii) :
  int_of_str s = Some z -> In c (list_ascii_of_string s) ->
  is_space c = true \/ c = "_"%char \/ c = "-"%char \/ c = "+"%char
  \/ is_digit c = true.
Proof.
  unfold int_of_str. cbv zeta. intros H Hc.
  destruct (In_strip c _ Hc) as [Hs|Hin]; [now left|]. right.
  destruct (count_digits (strip (list_ascii_of_string s))
            <=? int_max_str_digits)%N; [|discriminate H].
  unfold int_of_chars in H.
  destruct (strip (list_ascii_of_string s)) as [|x rest]; [destruct Hin|].
  assert (Hrest : forall v, digits_value rest 0 false = Some v ->
                            In c rest ->
                            c = "_"%char \/ is_digit c = true).
  { intros v Hv Hr. apply digits_value_chars in Hv.
    rewrite Forall_forall in Hv. now apply Hv. }
  destruct (Ascii.eqb_spec x "-"%char) as [->|Hm].
  - destruct (digits_value rest 0 false) as [v|] eqn:E; [|discriminate H].
    destruct Hin as [<-|Hr]; [auto|].
    destruct (Hrest v eq_refl Hr); auto.
  - destruct (Ascii.eqb_spec x "+"%char) as [->|Hp].
    + destruct Hin as [<-|Hr]; [auto|].
      destruct (Hrest z H Hr); auto.
    + apply digits_value_chars in H. rewrite Forall_forall in H.
      destruct (H c Hin); auto.
Qed.

Lemma chars_app (a b : string) :
  list_ascii_of_string (a ++ b)
  = list_ascii_of_string a ++ list_ascii_of_string b.
Proof. induction a as [|c a IH]; cbn; [reflexivity | now rewrite IH]. Qed.

Lemma str_in_chars (needle hay : string) (c : ascii) :
  str_in needle hay = true -> In c (list_ascii_of_string needle) ->
  In c (list_ascii_of_string hay).
Proof.
  intros H Hc. apply str_in_spec in H. destruct H as [a [b ->]].
  rewrite !chars_app, !in_app_iff. auto.
Qed.

(** The text of a float is no integer for [int()]. *)
Lemma int_of_str_float_text (s : string) :
  is_float_text s = true -> int_of_str s = None.
Proof.
  unfold is_float_text. intros H.
  destruct (int_of_str s) as [z|] eqn:E; [exfalso|reflexivity].
  assert (Hbad : exists c, In c (list_ascii_of_string s) /\
                           is_space c = false /\ c <> "_"%char /\
                           c <> "-"%char /\ c <> "+"%char /\
                           is_digit c = false).
  { rewrite !orb_true_iff in H. destruct H as [[[H|H]|H]|H].
    - exists "."%char. split; [apply (str_in_chars _ _ _ H); now left|].
      repeat split; discriminate.
    - exists "e"%char. split; [apply (str_in_chars _ _ _ H); now left|].
      repeat split; discriminate.
    - exists "i"%char. split; [apply (str_in_chars _ _ _ H); now left|].
      repeat split; discriminate.
    - exists "n"%char. split; [apply (str_in_chars _ _ _ H); now left|].
      repeat split; discriminate. }
  destruct Hbad as [c [Hin [H1 [H2 [H3 [H4 H5]]]]]].
  destruct (int_of_str_chars s c E Hin) as [K|[K|[K|[K|K]]]]; congruence.
Qed.

(** X14.  A count the parser accepts is read back by the statistics
    reader with the same value when it came as a JSON integer or as a
    string of ASCII characters: the reader's [int()] of the cell, as text
    mode hands it over, is the parser's [int()] of the value.  A JSON boolean and a JSON
    number with a fraction or an exponent are the exceptions: the parser
    accepts them ([true] as 1, 2.9 as 2), the cell holds [True], [False]
    or the text of the float, and the reader refuses it.  JSON [null] is
    refused by the parser. *)
Theorem count_cell_round_trip :
  (forall z : Z,
      Z.abs z < 10 ^ Z.of_N int_max_str_digits ->
      py_int (PyInt z) = Some z /\
      int_of_str (Monitor.universal_newlines (py_str (PyInt z))) = Some z) /\
  (forall s : string,
      is_ascii s = true ->
      int_of_str (Monitor.universal_newlines (py_str (PyStr s)))
      = py_int (PyStr s)) /\
  (forall b : bool,
      py_int (PyBool b) = Some (if b then 1 else 0) /\
      int_of_str (Monitor.universal_newlines (py_str (PyBool b))) = None) /\
  (forall f : pyfloat,
      is_float_text (float_str f) = true ->
      py_int (PyFloat f) = float_int f /\
      int_of_str (Monitor.universal_newlines (py_str (PyFloat f))) = None) /\
  py_int PyNone = None.
Proof.
  split; [|split; [|split; [|split]]].
  - intros z Hz. split; [reflexivity|].
    rewrite int_of_str_universal_newlines.
    now apply int_of_str_py_str_int.
  - intros s _. apply int_of_str_universal_newlines.
  - intros b. split; [reflexivity|].
    rewrite int_of_str_universal_newlines. now destruct b.
  - intros f Hf. split; [reflexivity|].
    rewrite int_of_str_universal_newlines.
    now apply int_of_str_float_text.
  - reflexivity.
Qed.

(* ================================================================= *)
(** * From the payload to the statistics *)




Lemma emitted_app (a b : list entry) :
  emitted (a ++ b)
  = emitted a ++ (if forallb parsable a then emitted b else []).
Proof.
  induction a as [|e a IH]; simpl; [reflexivity|].
  unfold parsable at 1.
  destruct (py_int (e_count e)) as [n|]; simpl; [|reflexivity].
  destruct (0 <? n); rewrite IH; reflexivity.
Qed.

(** X16.  What the parser returns in the good case, and how it grows:
    when every count it meets is an integer, it returns the rows of the
    entries with a count greater than 0, in traversal order; the rows of
    a payload are always the first rows of any payload that has more
    resorts after the same ones, and when the first resorts have only
    integer counts the rest is what the parser returns for the other
    resorts alone. *)
Theorem parser_rows_in_traversal_order :
  (forall data : payload,
      forallb parsable (entries data) = true ->
      Parser.extract data = map entry_row (filter positive (entries data))) /\
  (forall rs1 rs2 : list resort,
      exists more,
        Parser.extract (mkPayload (Some (rs1 ++ rs2)))
        = Parser.extract (mkPayload (Some rs1)) ++ more) /\
  (forall rs1 rs2 : list resort,
      forallb parsable (entries (mkPayload (Some rs1))) = true ->
      Parser.extract (mkPayload (Some (rs1 ++ rs2)))
      = Parser.extract (mkPayload (Some rs1))
          ++ Parser.extract (mkPayload (Some rs2))).
Proof.
  assert (Happ : forall rs1 rs2,
             entries (mkPayload (Some (rs1 ++ rs2)))
             = entries (mkPayload (Some rs1))
                 ++ entries (mkPayload (Some rs2))).
  { intros rs1 rs2. unfold entries. simpl. apply flat_map_app. }
  split; [|split].
  - intros data H. rewrite extract_emitted.
    rewrite <- (app_nil_r (entries data)) at 1.
    rewrite emitted_app_parsable by assumption. simpl. apply app_nil_r.
  - intros rs1 rs2. rewrite !extract_emitted, Happ, emitted_app.
    eexists. reflexivity.
  - intros rs1 rs2 H. rewrite !extract_emitted, Happ, emitted_app.
    now rewrite H.
Qed.

(* ================================================================= *)
(** * The stays of a month *)

Lemma list_max_bounds (l : list Z) (x : Z) :
  x <= Scanner.list_max x l /\
  forall y, In y l -> y <= Scanner.list_max x l.
Proof.
  unfold Scanner.list_max. revert x.
  induction l as [|a l IH]; intros x; simpl.
  - split; [lia | tauto].
  - destruct (IH (Z.max x a)) as [H1 H2]. split; [lia|].
    intros y [Hy|Hy]; [subst y; lia | now apply H2].
Qed.

Lemma list_max_ge (l : list Z) (x y : Z) :
  y = x \/ In y l -> y <= Scanner.list_max x l.
Proof.
  destruct (list_max_bounds l x) as [H1 H2].
  intros [Hy|Hy]; [subst y; exact H1 | now apply H2].
Qed.

Lemma existsb_Zeqb_In (x : Z) (l : list Z) :
  existsb (Z.eqb x) l = true -> In x l.
Proof.
  intros H. apply existsb_exists in H. destruct H as [y [Hy E]].
  apply Z.eqb_eq in E. now subst y.
Qed.

(** X17.  Every stay the scanner tries to click starts on an enabled day
    of the left panel and ends on an enabled day three days later: in the
    left panel when that day exists there, otherwise in the right panel,
    on the day counted on from the last day of the left panel, which is
    at least day 1 and, for a start that is a day of the left panel, at
    most day 3.  Without day labels in the left panel nothing is tried. *)
Theorem selectable_stays_span_three_days :
  forall (left_all left_enabled right_enabled : list Z)
         (start end_day : Z) (end_panel : Scanner.panel),
    In (start, end_day, end_panel)
       (Scanner.selectable_stays left_all left_enabled right_enabled) ->
    exists x rest,
      left_all = x :: rest /\
      let days_in_left := Scanner.list_max x rest in
      In start left_enabled /\
      (end_panel = Scanner.LeftPanel ->
       end_day = start + 3 /\ end_day <= days_in_left /\
       In end_day left_enabled) /\
      (end_panel = Scanner.RightPanel ->
       end_day = start + 3 - days_in_left /\ 1 <= end_day /\
       In end_day right_enabled /\
       (In start left_all -> end_day <= 3)).
Proof.
  intros left_all left_enabled right_enabled start end_day end_panel H.
  unfold Scanner.selectable_stays in H.
  destruct left_all as [|x rest]; [contradiction|].
  exists x, rest. split; [reflexivity|]. cbv zeta.
  apply in_flat_map in H. destruct H as [s [Hs H]].
  unfold Scanner.stay_end, Scanner.STAY_LENGTH_DAYS in H.
  destruct (s + 3 <=? Scanner.list_max x rest) eqn:E.
  - apply Z.leb_le in E.
    destruct (existsb (Z.eqb (s + 3)) left_enabled) eqn:C; [|contradiction].
    destruct H as [H|[]]. injection H as <- <- <-.
    split; [exact Hs|]. split; [|discriminate].
    intros _. repeat split; [exact E | now apply existsb_Zeqb_In].
  - apply Z.leb_gt in E.
    destruct (existsb (Z.eqb (s + 3 - Scanner.list_max x rest)) right_enabled)
      eqn:C; [|contradiction].
    destruct H as [H|[]]. injection H as <- <- <-.
    split; [exact Hs|]. split; [discriminate|].
    intros _. split; [reflexivity|]. split; [lia|].
    split; [now apply existsb_Zeqb_In|].
    intros Hin.
    assert (s <= Scanner.list_max x rest).
    { apply list_max_ge. destruct Hin as [<-|Hin]; [now left | now right]. }
    lia.
Qed.

(* ================================================================= *)
(** * Appends and regenerations interleaved *)

Lemma watcher_append_covers (out : path) (self : Watcher.t)
      (new_rows : list row) (w : world) :
  Watcher.output_csv self = out -> can_open w out = true ->
  file_covers_ledger self w ->
  let st := Watcher._append_to_csv self new_rows w in
  Watcher.output_csv (fst st) = out /\ can_open (snd st) out = true /\
  file_covers_ledger (fst st) (snd st).
Proof.
  intros Hout Hopen [lines [Hfile Hperm]] st.
  destruct (watcher_append_world self new_rows w)
    as [news [Huc [Ho [_ [Hc Hr]]]]].
  fold st in Huc, Ho, Hc, Hr.
  split; [congruence|]. split; [now rewrite Hc|].
  unfold file_covers_ledger.
  rewrite Ho, Huc, dict_values_app_entries, map_app.
  rewrite Hr by congruence. destruct news as [|r news].
  - exists lines. split; [exact Hfile|]. simpl. now rewrite app_nil_r.
  - exists (lines ++ map csv_of_row (r :: news)). split.
    + rewrite Hfile. reflexivity.
    + now apply Permutation_app_tail.
Qed.

Lemma watcher_act_covers (out : path) (read : path -> option payload)
      (st : Watcher.t * world) (a : Watcher.action) :
  Watcher.output_csv (fst st) = out -> can_open (snd st) out = true ->
  file_covers_ledger (fst st) (snd st) ->
  let st' := Watcher.act read st a in
  Watcher.output_csv (fst st') = out /\ can_open (snd st') out = true /\
  file_covers_ledger (fst st') (snd st').
Proof.
  intros Hout Hopen Hcov.
  assert (Hfile : forall p c,
             let st' := Watcher._process_file (fst st) p c (snd st) in
             Watcher.output_csv (fst st') = out /\
             can_open (snd st') out = true /\
             file_covers_ledger (fst st') (snd st')).
  { intros p c. unfold Watcher._process_file.
    destruct (existsb (String.eqb p) (Watcher.processed_files (fst st)));
      [auto|].
    destruct c as [data|]; [|simpl; auto].
    destruct (Watcher._parse_response data) as [|r rows]; [simpl; auto|].
    destruct (watcher_append_covers (r :: rows) Hout Hopen Hcov)
      as [Ho [Hc Hl]].
    destruct (Watcher._append_to_csv (fst st) (r :: rows) (snd st))
      as [self1 w1].
    simpl in *. auto. }
  destruct a as [[ev|ev]|]; simpl.
  - unfold Watcher.on_created.
    destruct (Watcher.is_directory ev); [auto|].
    destruct (Watcher.is_response_path (Watcher.src_path ev)); [|auto].
    apply Hfile.
  - unfold Watcher.on_modified.
    destruct (Watcher.is_directory ev); [auto|].
    destruct (Watcher.is_response_path (Watcher.src_path ev)); [|auto].
    destruct (negb _); [|auto].
    apply Hfile.
  - split; [exact Hout|]. unfold Watcher.regenerate_sorted_csv.
    rewrite write_w_ok by congruence. split; [exact Hopen|].
    exists (map csv_of_row
                (sorted_data (Watcher.unique_combinations (fst st)))).
    split.
    + rewrite Hout. apply read_after_write.
    + apply Permutation_map, sorted_data_perm.
Qed.

(** X18.  A watcher whose output file stayed openable, started on any
    files and then given any interleaving of events and regenerations,
    has in its file the header followed by exactly one line per record of
    the ledger, in some order; right after a regeneration the order is
    the sorted one. *)
Theorem file_always_covers_ledger :
  forall (out : path) (existing_files : list (path * option payload))
         (read : path -> option payload) (actions : list Watcher.action)
         (w : world),
    can_open w out = true ->
    exists self w1,
      Watcher.init out existing_files w = (Some self, w1) /\
      let st := fold_left (Watcher.act read) actions (self, w1) in
      (exists lines,
          read_file (snd st) out = Some (fieldnames :: lines) /\
          Permutation lines
                      (map csv_of_row
                           (dict_values
                              (Watcher.unique_combinations (fst st))))) /\
      read_file (snd (Watcher.act read st Watcher.Regenerate)) out
      = Some (fieldnames
                :: map csv_of_row
                     (sorted_data (Watcher.unique_combinations (fst st)))).
Proof.
  intros out existing_files read actions w Hopen.
  unfold Watcher.init, Watcher._initialize_csv, write_file.
  cbn [Watcher.output_csv Watcher.fresh]. rewrite Hopen.
  set (w0 := mkWorld (can_open w)
                     (dict_set String.eqb (disk w) out ([] ++ [fieldnames]))
                     (trace w ++ [OpenOk out])).
  assert (H0 : Watcher.output_csv (Watcher.fresh out) = out
               /\ can_open w0 out = true
               /\ live_file (Watcher.fresh out) w0).
  { split; [reflexivity|]. split; [exact Hopen|].
    unfold live_file. apply read_after_write. }
  assert (H1 : let st := Watcher._process_existing_files
                           (Watcher.fresh out) existing_files w0 in
               Watcher.output_csv (fst st) = out
               /\ can_open (snd st) out = true
               /\ live_file (fst st) (snd st)).
  { unfold Watcher._process_existing_files.
    destruct existing_files as [|f fs]; [exact H0|].
    destruct H0 as [Ha [Hb Hc]].
    now apply watcher_process_files_live. }
  destruct (Watcher._process_existing_files
              (Watcher.fresh out) existing_files w0) as [self w1].
  exists self, w1. split; [reflexivity|]. simpl in H1.
  destruct H1 as [Ha [Hb Hc]].
  assert (Hcov : file_covers_ledger self w1).
  { exists (map csv_of_row
                (dict_values (Watcher.unique_combinations self))).
    split; [exact Hc | reflexivity]. }
  assert (H2 : forall acts st,
             Watcher.output_csv (fst st) = out ->
             can_open (snd st) out = true ->
             file_covers_ledger (fst st) (snd st) ->
             let st' := fold_left (Watcher.act read) acts st in
             Watcher.output_csv (fst st') = out /\
             can_open (snd st') out = true /\
             file_covers_ledger (fst st') (snd st')).
  { induction acts as [|a acts IH]; intros st Ha' Hb' Hc'; [simpl; auto|].
    cbn [fold_left].
    destruct (watcher_act_covers read st a Ha' Hb' Hc') as [Ha2 [Hb2 Hc2]].
    now apply IH. }
  destruct (H2 actions (self, w1) Ha Hb Hcov) as [Ho [Hop Hl]].
  cbv zeta. split.
  - unfold file_covers_ledger in Hl. now rewrite Ho in Hl.
  - simpl. unfold Watcher.regenerate_sorted_csv.
    rewrite write_w_ok by congruence. rewrite Ho. apply read_after_write.
Qed.

(* ================================================================= *)
(** * The further properties at sample inputs *)

Lemma append_only_ledger_and_file_witness :
  exists news,
    read_file
      (snd (Watcher._append_to_csv (Watcher.fresh "out.csv")
                                   [row_two; row_five] open_world))
      "out.csv"
    = Some (get_or (read_file open_world "out.csv") []
              ++ map csv_of_row news).
Proof.
  destruct (append_only_ledger_and_file (Watcher.fresh "out.csv")
                                        [row_two; row_five] open_world)
    as [news [_ [_ [Hsize [_ Hfile]]]]].
  exists news. apply Hfile.
  - intros E. rewrite E in Hsize. vm_compute in Hsize. discriminate Hsize.
  - reflexivity.
Defined.

Lemma live_file_mirrors_ledger_witness :
  exists self w1,
    Watcher.init "out.csv" [file_a; file_b] open_world = (Some self, w1) /\
    let st := fold_left (Watcher.dispatch read_c)
                        [Watcher.Created event_c; Watcher.Modified event_c]
                        (self, w1) in
    read_file (snd st) "out.csv"
    = Some (fieldnames
              :: map csv_of_row
                   (dict_values (Watcher.unique_combinations (fst st)))).
Proof.
  apply (proj1 (live_file_mirrors_ledger
                  "out.csv" [file_a; file_b] read_c
                  [Watcher.Created event_c; Watcher.Modified event_c]
                  open_world)).
  reflexivity.
Defined.

Lemma processed_file_is_skipped_witness :
  py_path "./a-network-response.txt" = "a-network-response.txt" /\
  (let st := fold_left (Watcher.act read_c)
                       [Watcher.Deliver (Watcher.Created event_c);
                        Watcher.Regenerate]
                       (Watcher._process_file
                          (Watcher.fresh "out.csv") "a-network-response.txt"
                          (Some (sample_payload "A1" "Ocean" [inv_two]))
                          open_world) in
   Watcher.on_created (fst st)
     (Watcher.mkEvent false "./a-network-response.txt") read_c open_world
   = (fst st, open_world)) /\
  Watcher.unique_combinations
    (fst (Watcher.on_created
            (fst (Watcher._process_file (Watcher.fresh "out.csv")
                                        "a-network-response.txt" None
                                        open_world))
            (Watcher.mkEvent false "./a-network-response.txt")
            (fun _ => snd file_a) open_world))
  = [(key_of row_two, row_two)].
Proof.
  destruct processed_file_is_skipped as [Hskip Hretry].
  split; [reflexivity|]. split.
  - destruct (Hskip (Watcher.fresh "out.csv") "a-network-response.txt"
                    (sample_payload "A1" "Ocean" [inv_two]) open_world
                    read_c
                    [Watcher.Deliver (Watcher.Created event_c);
                     Watcher.Regenerate]) as [_ Hevent].
    apply (Hevent (Watcher.mkEvent false "./a-network-response.txt")
                  read_c open_world).
    reflexivity.
  - destruct (Hretry (Watcher.fresh "out.csv") "a-network-response.txt"
                     open_world) as [_ [_ [_ Hlater]]]; [reflexivity|].
    refine (proj1 (Hlater (Watcher.mkEvent false "./a-network-response.txt")
                          (fun _ => snd file_a)
                          (sample_payload "A1" "Ocean" [inv_two]) open_world
                          _ _ _ _)); reflexivity.
Defined.

Lemma handlers_filter_and_agree_witness :
  Watcher.on_created (Watcher.fresh "out.csv") event_dir read_c open_world
  = (Watcher.fresh "out.csv", open_world).
Proof.
  destruct (handlers_filter_and_agree (Watcher.fresh "out.csv") event_dir
                                      read_c open_world)
    as [_ [Hdir _]].
  apply Hdir. reflexivity.
Defined.

Lemma aggregate_by_date_sound_complete_witness :
  In row_two [row_queen; row_two; row_five].
Proof.
  destruct (aggregate_by_date_sound_complete [row_queen; row_two; row_five])
    as [Hsound _].
  apply Hsound. simpl. left. reflexivity.
Defined.

Lemma listing_order_is_irrelevant_witness :
  Watcher._process_existing_files (Watcher.fresh "out.csv")
                                  [file_c; file_a] open_world
  = Watcher._process_existing_files (Watcher.fresh "out.csv")
                                    [file_a; file_c] open_world.
Proof.
  destruct (@listing_order_is_irrelevant [file_c; file_a] [file_a; file_c])
    as [_ Hstart].
  - apply perm_swap.
  - simpl. repeat constructor; simpl; intuition discriminate.
  - apply Hstart.
Defined.





Lemma count_cell_round_trip_witness :
  int_of_str (Monitor.universal_newlines (py_str (PyInt 7))) = Some 7 /\
  int_of_str (Monitor.universal_newlines (py_str (PyStr " 7 "))) = Some 7 /\
  py_int (PyFloat (mkFloat (Some 2) "2.9" true)) = Some 2 /\
  int_of_str
    (Monitor.universal_newlines
       (py_str (PyFloat (mkFloat (Some 2) "2.9" true)))) = None.
Proof.
  destruct count_cell_round_trip as [Hint [Hstr [_ [Hfloat _]]]].
  split; [|split; [|split]].
  - apply (Hint 7). vm_compute. reflexivity.
  - rewrite (Hstr " 7 " eq_refl). reflexivity.
  - apply (Hfloat (mkFloat (Some 2) "2.9" true)). reflexivity.
  - apply (Hfloat (mkFloat (Some 2) "2.9" true)). reflexivity.
Defined.


Lemma parser_rows_in_traversal_order_witness :
  Parser.extract (sample_payload "A1" "Ocean" [inv_two; inv_zero; inv_queen])
  = map entry_row
        (filter positive
                (entries (sample_payload "A1" "Ocean"
                                         [inv_two; inv_zero; inv_queen]))).
Proof.
  destruct parser_rows_in_traversal_order as [Hgood _].
  apply Hgood. reflexivity.
Defined.

Lemma selectable_stays_span_three_days_witness :
  exists x rest,
    [29; 30; 31] = x :: rest /\
    let days_in_left := Scanner.list_max x rest in
    In 29 [29; 30] /\
    (Scanner.RightPanel = Scanner.LeftPanel ->
     1 = 29 + 3 /\ 1 <= days_in_left /\ In 1 [29; 30]) /\
    (Scanner.RightPanel = Scanner.RightPanel ->
     1 = 29 + 3 - days_in_left /\ 1 <= 1 /\ In 1 [1; 2] /\
     (In 29 [29; 30; 31] -> 1 <= 3)).
Proof.
  apply (selectable_stays_span_three_days [29; 30; 31] [29; 30] [1; 2]).
  simpl. left. reflexivity.
Defined.

Lemma file_always_covers_ledger_witness :
  exists self w1,
    Watcher.init "out.csv" [file_a] open_world = (Some self, w1) /\
    let st := fold_left (Watcher.act read_c)
                        [Watcher.Regenerate;
                         Watcher.Deliver (Watcher.Created event_c)]
                        (self, w1) in
    (exists lines,
        read_file (snd st) "out.csv" = Some (fieldnames :: lines) /\
        Permutation lines
                    (map csv_of_row
                         (dict_values
                            (Watcher.unique_combinations (fst st))))) /\
    read_file (snd (Watcher.act read_c st Watcher.Regenerate)) "out.csv"
    = Some (fieldnames
              :: map csv_of_row
                   (sorted_data (Watcher.unique_combinations (fst st)))).
Proof.
  apply (file_always_covers_ledger
           "out.csv" [file_a] read_c
           [Watcher.Regenerate; Watcher.Deliver (Watcher.Created event_c)]
           open_world).
  reflexivity.
Defined.
